(** * S3Wrapper: a shallow embedding of the S3 convenience layer

  The repository holds two variants of the same package:
  [s3wrapper/] (the current one, with docstrings and the metadata
  operations) and [S3Wrapper/] (the earlier one).  Both are embedded
  here.  Functions whose bodies differ only in console markup are
  shared; those that differ in behaviour have a [Legacy] twin.

  The wrapper is glue around three collaborators that are not part of
  the repository: the Python runtime (exceptions, [str], [os.path],
  [hashlib]), the boto3 client and rich's [Prompt].  They are modelled
  as an explicit [world] that every method threads:

    - a local filesystem (path -> contents),
    - the remote store (bucket -> key -> object),
    - the answer of the service to [list_buckets],
    - the operator's terminal input, line by line,
    - a fault plan: for the n-th SDK call, the exception it raises,
    - a trace of everything the program did to the outside.          *)

From Stdlib Require Import ZArith Lia Ascii String.
From stdpp Require Import base option list gmap strings fin_maps sorting.

Local Open Scope string_scope.
Local Open Scope Z_scope.

(** ** Python values and exceptions *)

Module Py.

(** The [Exception] subclasses that the two variants raise, catch or
    let through.  [ClientError] is botocore's class for every error
    response of the service; it carries the service's error code
    ("404", "NoSuchKey", "AccessDenied", "SlowDown", ...).
    [BotoCoreError] stands for the SDK's client-side failures, which
    are not [ClientError]s (EndpointConnectionError,
    ParamValidationError, ReadTimeoutError, S3UploadFailedError, ...). *)
Inductive exn :=
| ClientError (code : string)
| BotoCoreError (name : string)
| KeyError (key : string)
| TypeError (msg : string)
| FileNotFoundError (msg : string)
| EOFError
| S3Exception (msg : string).

#[export] Instance exn_eq_dec : EqDecision exn.
Proof. solve_decision. Defined.

Inductive result (A : Type) :=
| Ok (a : A)
| Raise (e : exn).
Arguments Ok {A} a.
Arguments Raise {A} e.

(** [except ClientError], [except KeyError], [except Exception]. *)
Definition is_ClientError (e : exn) : bool :=
  match e with ClientError _ => true | _ => false end.
Definition is_KeyError (e : exn) : bool :=
  match e with KeyError _ => true | _ => false end.
Definition is_Exception (e : exn) : bool := true.

(** [str.startswith], [str.endswith] and [str.strip].  A [string] is
    the UTF-8 text; prefix and suffix tests on code points and on
    their UTF-8 bytes agree. *)
Definition startswith (s p : string) : bool := String.prefix p s.

Definition endswith (s suf : string) : bool :=
  let n := String.length s in
  let m := String.length suf in
  if (m <=? n)%nat then String.eqb (substring (n - m) m s) suf else false.

Definition isspace (c : ascii) : bool :=
  let n := nat_of_ascii c in
  ((9 <=? n) && (n <=? 13) || (28 <=? n) && (n <=? 32))%nat.

Fixpoint lstrip (s : string) : string :=
  match s with
  | String c r => if isspace c then lstrip r else s
  | EmptyString => EmptyString
  end.

Fixpoint rstrip (s : string) : string :=
  match s with
  | String c r =>
      match rstrip r with
      | EmptyString => if isspace c then EmptyString else String c EmptyString
      | r' => String c r'
      end
  | EmptyString => EmptyString
  end.

Definition strip (s : string) : string := rstrip (lstrip s).

(** Truthiness of [str | None] and of a [dict]. *)
Definition truthy_str (s : option string) : bool :=
  match s with
  | Some s' => negb (String.eqb s' "")
  | None => false
  end.

Definition truthy_dict {V} (d : gmap string V) : bool :=
  negb (Nat.eqb (size d) 0).

(** [os.path.join(a, b)] on POSIX, for two components. *)
Definition os_path_join (a b : string) : string :=
  if startswith b "/" then b
  else if String.eqb a "" || endswith a "/" then a +:+ b
  else a +:+ "/" +:+ b.

(** [os.path.basename]: what follows the last slash. *)
Fixpoint basename (p : string) : string :=
  match p with
  | EmptyString => EmptyString
  | String c r =>
      if existsb (Ascii.eqb "/"%char) (list_ascii_of_string r) then basename r
      else if Ascii.eqb c "/"%char then r else p
  end.

(** Cut a list into consecutive runs of [size] elements (the last one
    may be shorter); [fuel] bounds the number of runs. *)
Fixpoint chunks {A} (fuel size : nat) (l : list A) : list (list A) :=
  match fuel with
  | O => []
  | S fuel' =>
      match l with
      | [] => []
      | _ => take size l :: chunks fuel' size (drop size l)
      end
  end.

End Py.
Export Py.

(** ** [hashlib.sha256(...).hexdigest()] (FIPS 180-4) *)

Module SHA256.

Definition mask32 (x : Z) : Z := Z.land x 4294967295.
Definition add32 (x y : Z) : Z := mask32 (x + y).
Definition rotr (n x : Z) : Z :=
  mask32 (Z.lor (Z.shiftr x n) (Z.shiftl x (32 - n))).

Definition Ch (x y z : Z) : Z :=
  Z.lxor (Z.land x y) (Z.land (mask32 (Z.lnot x)) z).
Definition Maj (x y z : Z) : Z :=
  Z.lxor (Z.lxor (Z.land x y) (Z.land x z)) (Z.land y z).
Definition Sigma0 (x : Z) : Z := Z.lxor (Z.lxor (rotr 2 x) (rotr 13 x)) (rotr 22 x).
Definition Sigma1 (x : Z) : Z := Z.lxor (Z.lxor (rotr 6 x) (rotr 11 x)) (rotr 25 x).
Definition sigma0 (x : Z) : Z := Z.lxor (Z.lxor (rotr 7 x) (rotr 18 x)) (Z.shiftr x 3).
Definition sigma1 (x : Z) : Z := Z.lxor (Z.lxor (rotr 17 x) (rotr 19 x)) (Z.shiftr x 10).

(** The round constants are the first 32 bits of the fractional parts of
    the cube roots of the first 64 primes, the initial hash value those of
    the square roots of the first 8. *)
Definition is_prime (n : nat) : bool :=
  (1 <? n)%nat && forallb (fun d => negb (n mod d =? 0)%nat) (seq 2 (n - 2)).

Definition primes (count : nat) : list Z :=
  map Z.of_nat (take count (List.filter is_prime (seq 2 310))).

(** The integer cube root, bit by bit from the top. *)
Fixpoint cbrt_bits (bits : nat) (n r : Z) : Z :=
  match bits with
  | O => r
  | S b =>
      let r' := Z.lor r (Z.shiftl 1 (Z.of_nat b)) in
      cbrt_bits b n (if r' * r' * r' <=? n then r' else r)
  end.

Definition frac_cbrt (p : Z) : Z := mask32 (cbrt_bits 36 (Z.shiftl p 96) 0).
Definition frac_sqrt (p : Z) : Z := mask32 (Z.sqrt (Z.shiftl p 64)).

Definition K : list Z := Eval vm_compute in map frac_cbrt (primes 64).
Definition H0 : list Z := Eval vm_compute in map frac_sqrt (primes 8).

(** Big-endian encodings. *)
Fixpoint be_bytes (n : nat) (x : Z) : list Z :=
  match n with
  | O => []
  | S n' => Z.land (Z.shiftr x (8 * Z.of_nat n')) 255 :: be_bytes n' x
  end.

Definition be_word (bs : list Z) : Z :=
  fold_left (fun acc b => Z.lor (Z.shiftl acc 8) b) bs 0.

(** Padding: a 1 bit, zeros up to 56 mod 64, the bit length on 8 bytes. *)
Definition pad (msg : list Z) : list Z :=
  let len := Z.of_nat (length msg) in
  let zeros := Z.to_nat ((55 - len) mod 64) in
  msg ++ [128] ++ repeat 0 zeros ++ be_bytes 8 (8 * len).

(** Message schedule, newest word first while it grows. *)
Fixpoint extend (n : nat) (rev_w : list Z) : list Z :=
  match n with
  | O => rev_w
  | S n' =>
      let at_ i := nth i rev_w 0 in
      let w := add32 (add32 (add32 (sigma1 (at_ 1%nat)) (at_ 6%nat))
                            (sigma0 (at_ 14%nat))) (at_ 15%nat) in
      extend n' (w :: rev_w)
  end.

Definition schedule (block : list Z) : list Z :=
  rev (extend 48 (rev (map be_word (chunks 16 4 block)))).

Record regs := { ra : Z; rb : Z; rc : Z; rd : Z; re : Z; rf : Z; rg : Z; rh : Z }.

Definition round (s : regs) (kw : Z * Z) : regs :=
  let t1 := add32 (add32 (add32 (add32 (rh s) (Sigma1 (re s)))
                                (Ch (re s) (rf s) (rg s))) (fst kw)) (snd kw) in
  let t2 := add32 (Sigma0 (ra s)) (Maj (ra s) (rb s) (rc s)) in
  {| ra := add32 t1 t2; rb := ra s; rc := rb s; rd := rc s;
     re := add32 (rd s) t1; rf := re s; rg := rf s; rh := rg s |}.

Definition of_list (h : list Z) : regs :=
  let at_ i := nth i h 0 in
  {| ra := at_ 0%nat; rb := at_ 1%nat; rc := at_ 2%nat; rd := at_ 3%nat;
     re := at_ 4%nat; rf := at_ 5%nat; rg := at_ 6%nat; rh := at_ 7%nat |}.

Definition to_list (s : regs) : list Z :=
  [ra s; rb s; rc s; rd s; re s; rf s; rg s; rh s].

Definition compress (h : list Z) (block : list Z) : list Z :=
  let s := fold_left round (combine K (schedule block)) (of_list h) in
  zip_with add32 h (to_list s).

Definition digest_words (msg : list Z) : list Z :=
  let p := pad msg in
  fold_left compress (chunks (length p) 64 p) H0.

Definition hex_digit (d : Z) : ascii :=
  nth (Z.to_nat d) (list_ascii_of_string "0123456789abcdef") "0"%char.

Definition hex_byte (b : Z) : list ascii :=
  [hex_digit (Z.shiftr b 4); hex_digit (Z.land b 15)].

Definition bytes_of_string (s : string) : list Z :=
  map (fun c => Z.of_nat (nat_of_ascii c)) (list_ascii_of_string s).

Definition hexdigest (data : string) : string :=
  string_of_list_ascii
    (flat_map hex_byte (flat_map (be_bytes 4) (digest_words (bytes_of_string data)))).

End SHA256.

(** ** The world outside the program *)

Module World.

Definition metadata := gmap string string.

(** An object of the remote store.  The store keeps a metadata mapping as
    it is given to it. *)
Record S3Object := {
  obj_body : string;
  obj_metadata : metadata;
  obj_last_modified : Z;
}.

(** The responses of the SDK the wrapper subscripts.  botocore parses a
    response after the service model, so a member has its declared type
    whenever it is there; what can go wrong with the shape is that a
    member is missing, which is the [KeyError] the code catches. *)
Record Bucket := { Name : option string }.
Record ListBucketsOutput := { Buckets : option (list Bucket) }.

Record ObjectSummary := { Key : string; Size : Z }.
Record Page := { Contents : option (list ObjectSummary) }.

Record HeadObjectOutput := {
  ContentLength : Z;
  LastModified : Z;
  Metadata : metadata;
}.

(** [ExtraArgs] of [upload_file]: a dict with at most the 'Metadata' key. *)
Record extra_args := { ea_Metadata : option metadata }.

Inductive directive := COPY | REPLACE.

(** The calls on the boto3 client, with their arguments. *)
Inductive sdk_call :=
| list_buckets_call
| paginate_call (bucket : string)
| download_file_call (bucket key filename : string)
| upload_file_call (filename bucket key : string) (extra : option extra_args)
| head_object_call (bucket key : string)
| get_object_call (bucket key : string)
| body_read_call (bucket key : string)
| copy_object_call (bucket key src_bucket src_key : string)
                   (meta : metadata) (metadata_directive : directive)
| delete_object_call (bucket key : string).

(** Console notices.  Each constructor is one [print] of the source with
    the values its f-string interpolates; the rich markup, which is all
    that tells the two variants apart, is left out.  [NText] is a
    literal line. *)
Inductive notice :=
| NBucketEmpty
| NDownloading (bucket key path : string)
| NUploading (base bucket key : string)
| NObjectNotFound (key : string)
| NHeadersError (e : exn)
| NUpdatingMetadata (bucket key : string)
| NUpdateFailed (e : exn)
| NRetrieveError (e : exn)
| NDeleting (key bucket : string)
| NCantDelete (key : string)
| NRemoveList (bucket : string) (keys : list string)
| NText (s : string).

Inductive event :=
| EPrint (n : notice)
| EAsk (question : string)
| ECall (c : sdk_call).

Record world := {
  home : string;                       (* os.path.expanduser("~") *)
  fs : gmap string string;             (* regular files *)
  store : gmap string (gmap string S3Object);
  buckets_output : ListBucketsOutput;  (* the answer to list_buckets *)
  page_size : nat;                     (* a page holds 1 + page_size keys *)
  stdin : list string;                 (* lines the operator will type *)
  faults : nat -> sdk_call -> option exn;
  tick : nat;                          (* SDK calls made so far *)
  trace : list event;                  (* oldest first *)
}.

Definition log (e : event) (w : world) : world :=
  {| home := home w; fs := fs w; store := store w;
     buckets_output := buckets_output w; page_size := page_size w;
     stdin := stdin w; faults := faults w; tick := tick w;
     trace := trace w ++ [e] |}.

Definition bump (w : world) : world :=
  {| home := home w; fs := fs w; store := store w;
     buckets_output := buckets_output w; page_size := page_size w;
     stdin := stdin w; faults := faults w; tick := S (tick w);
     trace := trace w |}.

Definition set_fs (f : gmap string string) (w : world) : world :=
  {| home := home w; fs := f; store := store w;
     buckets_output := buckets_output w; page_size := page_size w;
     stdin := stdin w; faults := faults w; tick := tick w;
     trace := trace w |}.

Definition set_store (s : gmap string (gmap string S3Object)) (w : world) : world :=
  {| home := home w; fs := fs w; store := s;
     buckets_output := buckets_output w; page_size := page_size w;
     stdin := stdin w; faults := faults w; tick := tick w;
     trace := trace w |}.

Definition set_stdin (l : list string) (w : world) : world :=
  {| home := home w; fs := fs w; store := store w;
     buckets_output := buckets_output w; page_size := page_size w;
     stdin := l; faults := faults w; tick := tick w;
     trace := trace w |}.

(** *** The monad of a Python method: state survives a raise. *)
Definition M (A : Type) : Type := world -> result A * world.

Definition ret {A} (a : A) : M A := fun w => (Ok a, w).
Definition raise {A} (e : exn) : M A := fun w => (Raise e, w).
Definition bind {A B} (m : M A) (k : A -> M B) : M B :=
  fun w =>
    match m w with
    | (Ok a, w') => k a w'
    | (Raise e, w') => (Raise e, w')
    end.

(** [try: body except C1: h1 except C2: h2 ...]: the first clause whose
    class matches handles the exception. *)
Fixpoint dispatch {A} (clauses : list ((exn -> bool) * (exn -> M A)))
         (e : exn) : M A :=
  match clauses with
  | [] => raise e
  | (cls, h) :: rest => if cls e then h e else dispatch rest e
  end.

Definition try_ {A} (body : M A)
           (clauses : list ((exn -> bool) * (exn -> M A))) : M A :=
  fun w =>
    match body w with
    | (Ok a, w') => (Ok a, w')
    | (Raise e, w') => dispatch clauses e w'
    end.

Definition print (n : notice) : M unit := fun w => (Ok tt, log (EPrint n) w).

(** [d[key]] on a response member that may be missing. *)
Definition subscript {A} (member : option A) (key : string) : M A :=
  match member with
  | Some a => ret a
  | None => raise (KeyError key)
  end.

(** A list comprehension whose element expression may raise, and a
    [for] loop over a list. *)
Fixpoint comprehension {A B} (f : A -> M B) (l : list A) : M (list B) :=
  match l with
  | [] => ret []
  | x :: r =>
      bind (f x) (fun y => bind (comprehension f r) (fun ys => ret (y :: ys)))
  end.

Fixpoint for_ {A} (l : list A) (body : A -> M unit) : M unit :=
  match l with
  | [] => ret tt
  | x :: r => bind (body x) (fun _ => for_ r body)
  end.

End World.
Export World.

Declare Scope py_scope.
Delimit Scope py_scope with py.
Notation "x <- m ;; k" := (bind m (fun x => k))
(at level 100, m at next level, right associativity) : py_scope.
Notation "m ;;; k" := (bind m (fun _ => k))
(at level 100, right associativity) : py_scope.
Local Open Scope py_scope.

(** ** The boto3 client *)

Module Boto3.

Record client := {
  region_name : string;
  aws_access_key_id : string;
  aws_secret_access_key : string;
}.

(** [boto3.client('s3', ...)] builds the handle; no request is sent. *)
Definition new_client (access_key secret_access_key region : string) : M client :=
  ret {| region_name := region; aws_access_key_id := access_key;
         aws_secret_access_key := secret_access_key |}.

(** Every call is logged and counted; the fault plan may make it raise
    before it has any effect. *)
Definition call {A} (c : sdk_call) (normal : M A) : M A :=
  fun w =>
    let w1 := log (ECall c) (bump w) in
    match faults w (tick w) c with
    | Some e => (Raise e, w1)
    | None => normal w1
    end.

Definition lookup_object (bucket key : string) (w : world) : option S3Object :=
  objs ← store w !! bucket; objs !! key.

Definition list_buckets (c : client) : M ListBucketsOutput :=
  call list_buckets_call (fun w => (Ok (buckets_output w), w)).

(** The service lists a bucket in the byte order of its keys. *)
Definition key_order (a b : string * S3Object) : Prop := String.le (fst a) (fst b).

#[export] Instance key_order_dec : RelDecision key_order.
Proof. intros a b. unfold key_order. apply _. Defined.

Definition summaries (objs : gmap string S3Object) : list ObjectSummary :=
  (fun kv => {| Key := fst kv; Size := Z.of_nat (String.length (obj_body (snd kv))) |})
    <$> merge_sort key_order (map_to_list objs).

(** An empty listing is one page without 'Contents'. *)
Definition pages_of (size : nat) (l : list ObjectSummary) : list Page :=
  match l with
  | [] => [ {| Contents := None |} ]
  | _ => (fun c => {| Contents := Some c |}) <$> chunks (length l) (S size) l
  end.

(** [get_paginator('list_objects_v2').paginate(Bucket=...)], iterated to
    its end.  The loop that consumes it only fills a local list, so the
    pages are fetched here in one step. *)
Definition paginate (c : client) (bucket : string) : M (list Page) :=
  call (paginate_call bucket) (fun w =>
    match store w !! bucket with
    | None => (Raise (ClientError "NoSuchBucket"), w)
    | Some objs => (Ok (pages_of (page_size w) (summaries objs)), w)
    end).

Definition headers_of (o : S3Object) : HeadObjectOutput :=
  {| ContentLength := Z.of_nat (String.length (obj_body o));
     LastModified := obj_last_modified o;
     Metadata := obj_metadata o |}.

Definition head_object (c : client) (bucket key : string) : M HeadObjectOutput :=
  call (head_object_call bucket key) (fun w =>
    match lookup_object bucket key w with
    | None => (Raise (ClientError "404"), w)
    | Some o => (Ok (headers_of o), w)
    end).

(** [get_object(...)['Body']] is a stream; [read] is a second exchange. *)
Record StreamingBody := { sb_bucket : string; sb_key : string; sb_data : string }.
Record GetObjectOutput := { Body : StreamingBody }.

Definition get_object (c : client) (bucket key : string) : M GetObjectOutput :=
  call (get_object_call bucket key) (fun w =>
    match lookup_object bucket key w with
    | None => (Raise (ClientError "NoSuchKey"), w)
    | Some o =>
        (Ok {| Body := {| sb_bucket := bucket; sb_key := key;
                          sb_data := obj_body o |} |}, w)
    end).

Definition read (b : StreamingBody) : M string :=
  call (body_read_call (sb_bucket b) (sb_key b)) (ret (sb_data b)).

Definition put (bucket key : string) (o : S3Object) (objs : gmap string S3Object)
           (w : world) : world :=
  set_store (<[bucket := <[key := o]> objs]> (store w)) w.

Definition delete_object (c : client) (bucket key : string) : M unit :=
  call (delete_object_call bucket key) (fun w =>
    match store w !! bucket with
    | None => (Raise (ClientError "NoSuchBucket"), w)
    | Some objs => (Ok tt, set_store (<[bucket := delete key objs]> (store w)) w)
    end).

Definition copy_object (c : client) (bucket key src_bucket src_key : string)
           (meta : metadata) (d : directive) : M unit :=
  call (copy_object_call bucket key src_bucket src_key meta d) (fun w =>
    match lookup_object src_bucket src_key w, store w !! bucket with
    | None, _ => (Raise (ClientError "NoSuchKey"), w)
    | _, None => (Raise (ClientError "NoSuchBucket"), w)
    | Some o, Some objs =>
        match d with
        | COPY =>
            if bool_decide (bucket = src_bucket ∧ key = src_key)
            then (Raise (ClientError "InvalidRequest"), w)
            else (Ok tt, put bucket key
                   {| obj_body := obj_body o; obj_metadata := obj_metadata o;
                      obj_last_modified := Z.of_nat (tick w) |} objs w)
        | REPLACE =>
            (Ok tt, put bucket key
               {| obj_body := obj_body o; obj_metadata := meta;
                  obj_last_modified := Z.of_nat (tick w) |} objs w)
        end
    end).

Definition upload_file (c : client) (filename bucket key : string)
           (extra : option extra_args) : M unit :=
  call (upload_file_call filename bucket key extra) (fun w =>
    match fs w !! filename, store w !! bucket with
    | None, _ =>
        (Raise (FileNotFoundError
                  ("[Errno 2] No such file or directory: '" +:+ filename +:+ "'")), w)
    | _, None => (Raise (BotoCoreError "S3UploadFailedError"), w)
    | Some data, Some objs =>
        (Ok tt, put bucket key
           {| obj_body := data;
              obj_metadata := default ∅ (extra ≫= ea_Metadata);
              obj_last_modified := Z.of_nat (tick w) |} objs w)
    end).

Definition download_file (c : client) (bucket key filename : string) : M unit :=
  call (download_file_call bucket key filename) (fun w =>
    match lookup_object bucket key w with
    | None => (Raise (ClientError "404"), w)
    | Some o => (Ok tt, set_fs (<[filename := obj_body o]> (fs w)) w)
    end).

End Boto3.

(** ** [rich.prompt.Prompt] *)

Module Prompt.

(** One [Prompt.ask]: read a line; a blank line gives the default when
    there is one; otherwise the line is stripped and, when choices are
    given, asked again until it is one of them.  The end of the input
    is [input()]'s EOFError. *)
Fixpoint read_answer (choices : option (list string)) (default : option string)
         (lines : list string) : result string * list string :=
  match lines with
  | [] => (Raise EOFError, [])
  | value :: rest =>
      match default, String.eqb value "" with
      | Some d, true => (Ok d, rest)
      | _, _ =>
          let v := strip value in
          match choices with
          | None => (Ok v, rest)
          | Some cs =>
              if existsb (String.eqb v) cs then (Ok v, rest)
              else read_answer choices default rest
          end
      end
  end.

Definition ask (question : string) (choices : option (list string))
           (default : option string) : M string :=
  fun w =>
    let w1 := log (EAsk question) w in
    let '(r, rest) := read_answer choices default (stdin w1) in
    (r, set_stdin rest w1).

End Prompt.

(** ** s3wrapper/S3Auth.py *)

Module S3Auth.

Record t := { region_name : string; client : Boto3.client }.

Definition isfile (path : string) : M bool :=
  fun w => (Ok (bool_decide (is_Some (fs w !! path))), w).

(** The default of [key_location], [os.path.join(expanduser("~"), '.s3')]. *)
Definition default_key_location : M string :=
  fun w => (Ok (os_path_join (home w) ".s3"), w).

Definition _file_read (path : string) : M string :=
  fun w =>
    match fs w !! path with
    | Some text => (Ok (strip text), w)
    | None =>
        (Raise (FileNotFoundError
                  ("[Errno 2] No such file or directory: '" +:+ path +:+ "'")), w)
    end.

Definition missing_keys_message (key_location access_key_path
                                 secret_access_key_path : string) : string :=
  "[red]|ERROR| No key or private key found in " +:+ key_location +:+ ". "
  +:+ "Please create files " +:+ access_key_path +:+ " and "
  +:+ secret_access_key_path +:+ ".".

Definition _read_keys (key_location : string) : M (string * string) :=
  let access_key_path := os_path_join key_location "key" in
  let secret_access_key_path := os_path_join key_location "private_key" in
  a <- isfile access_key_path ;;
  b <- (if a then isfile secret_access_key_path else ret false) ;;
  if negb b then
    raise (FileNotFoundError
             (missing_keys_message key_location access_key_path secret_access_key_path))
  else
    access_key <- _file_read access_key_path ;;
    secret_access_key <- _file_read secret_access_key_path ;;
    ret (access_key, secret_access_key).

Definition _create_client (region : string)
           (access_key secret_access_key : option string) : M Boto3.client :=
  keys <- (if negb (truthy_str access_key) || negb (truthy_str secret_access_key)
           then key_location <- default_key_location ;; _read_keys key_location
           else ret (default "" access_key, default "" secret_access_key)) ;;
  Boto3.new_client (fst keys) (snd keys) region.

Definition __init__ (region : string)
           (access_key secret_access_key : option string) : M t :=
  c <- _create_client region access_key secret_access_key ;;
  ret {| region_name := region; client := c |}.

End S3Auth.

(** ** s3wrapper/S3Wrapper.py *)

Module S3Wrapper.

Record t := { s3 : Boto3.client; bucket : string }.

(** The [bool | dict] that [get_headers] returns.  A head response is
    never an empty dict, so it is truthy. *)
Inductive headers_or_false :=
| Headers (h : HeadObjectOutput)
| False_.

Definition truthy_headers (h : headers_or_false) : bool :=
  match h with Headers _ => true | False_ => false end.

Definition truthy_metadata (m : option metadata) : bool :=
  match m with Some d => truthy_dict d | None => false end.

Definition list_error_message : string :=
  "[red]|ERROR| Error while getting bucket list from AWS.".

Definition bucket_not_found_message (bucket_name : string) : string :=
  "[red]|ERROR| Bucket [cyan]" +:+ bucket_name +:+ "[/] not found.".

Definition when (b : bool) (m : M unit) : M unit := if b then m else ret tt.

Definition buckets_list (client : Boto3.client) : M (list string) :=
  try_ (resp <- Boto3.list_buckets client ;;
        buckets <- subscript (Buckets resp) "Buckets" ;;
        comprehension (fun b => subscript (Name b) "Name") buckets)
       [ (is_KeyError, fun _ => raise (S3Exception list_error_message)) ].

Definition _check_bucket_name (client : Boto3.client) (bucket_name : string)
  : M string :=
  names <- buckets_list client ;;
  if bool_decide (bucket_name ∈ names) then ret bucket_name
  else raise (S3Exception (bucket_not_found_message bucket_name)).

Definition default_bucket_name : string := "conversion-testing-files".
Definition default_region : string := "us-east-1".

Definition __init__ (bucket_name region : string)
           (access_key secret_access_key : option string) : M t :=
  auth <- S3Auth.__init__ region access_key secret_access_key ;;
  b <- _check_bucket_name (S3Auth.client auth) bucket_name ;;
  ret {| s3 := S3Auth.client auth; bucket := b |}.

Definition get_objects (self : t) : M (list string) :=
  pages <- Boto3.paginate (s3 self) (bucket self) ;;
  let file_names :=
    fold_left (fun acc page =>
                 match Contents page with
                 | Some objs => (acc ++ map Key objs)%list
                 | None => acc
                 end) pages [] in
  when (bool_decide (file_names = [])) (print NBucketEmpty) ;;;
  ret file_names.

Definition get_files (self : t) (s3_dir : option string) : M (list string) :=
  s3_objects <- get_objects self ;;
  match s3_dir with
  | Some dir =>
      ret (List.filter (fun file => startswith file dir && negb (endswith file "/"))
                       s3_objects)
  | None => ret (List.filter (fun file => negb (endswith file "/")) s3_objects)
  end.

Definition download (self : t) (object_key download_path : string)
           (stdout : bool) : M bool :=
  when stdout (print (NDownloading (bucket self) object_key download_path)) ;;;
  try_ (Boto3.download_file (s3 self) (bucket self) object_key download_path ;;;
        ret true)
       [ (is_ClientError, fun _ => print (NObjectNotFound object_key) ;;; ret false) ].

Definition upload (self : t) (file_path object_key : string) (stdout : bool)
           (meta : option metadata) : M unit :=
  when stdout (print (NUploading (basename file_path) (bucket self) object_key)) ;;;
  let extra_args :=
    if truthy_metadata meta then {| ea_Metadata := meta |}
    else {| ea_Metadata := None |} in
  Boto3.upload_file (s3 self) file_path (bucket self) object_key
    (if bool_decide (is_Some (ea_Metadata extra_args)) then Some extra_args else None).

Definition get_headers (self : t) (object_key : string) (stderr : bool)
  : M headers_or_false :=
  try_ (h <- Boto3.head_object (s3 self) (bucket self) object_key ;; ret (Headers h))
       [ (is_ClientError,
          fun _ => when stderr (print (NObjectNotFound object_key)) ;;; ret False_);
         (is_Exception,
          fun e => when stderr (print (NHeadersError e)) ;;; ret False_) ].

Definition get_size (self : t) (object_key : string) : M Z :=
  headers <- get_headers self object_key true ;;
  ret (match headers with Headers h => ContentLength h | False_ => 0 end).

Definition get_metadata (self : t) (object_key : string) : M (option metadata) :=
  headers <- get_headers self object_key true ;;
  ret (match headers with Headers h => Some (Metadata h) | False_ => None end).

Definition update_metadata (self : t) (object_key : string) (meta : metadata)
           (stdout : bool) : M bool :=
  headers <- get_headers self object_key false ;;
  if negb (truthy_headers headers) then
    print (NObjectNotFound object_key) ;;; ret false
  else
    when stdout (print (NUpdatingMetadata (bucket self) object_key)) ;;;
    try_ (Boto3.copy_object (s3 self) (bucket self) object_key
                            (bucket self) object_key meta REPLACE ;;;
          ret true)
         [ (is_Exception, fun e => print (NUpdateFailed e) ;;; ret false) ].

Definition get_last_modified (self : t) (object_key : string) : M (option Z) :=
  headers <- get_headers self object_key true ;;
  ret (match headers with Headers h => Some (LastModified h) | False_ => None end).

Definition get_sha256 (self : t) (object_key : string) : M (option string) :=
  try_ (resp <- Boto3.get_object (s3 self) (bucket self) object_key ;;
        file_contents <- Boto3.read (Boto3.Body resp) ;;
        ret (Some (SHA256.hexdigest file_contents)))
       [ (is_Exception, fun e => print (NRetrieveError e) ;;; ret None) ].

Definition delete_question : string :=
  "[bold red]|WARNING|Are you sure you want to delete the object:".
Definition continue_question : string := "[bold red]|WARNING| Continue?".

Definition delete (self : t) (object_key : string) (warning_msg : bool) : M unit :=
  print (NDeleting object_key (bucket self)) ;;;
  when warning_msg (Prompt.ask delete_question None None ;;; ret tt) ;;;
  headers <- get_headers self object_key true ;;
  if truthy_headers headers then
    Boto3.delete_object (s3 self) (bucket self) object_key
  else
    print (NCantDelete object_key).

Definition delete_from_list (self : t) (object_keys : list string) : M unit :=
  print (NRemoveList (bucket self) object_keys) ;;;
  answer <- Prompt.ask continue_question (Some ["yes"; "no"]) (Some "no") ;;
  if String.eqb answer "yes" then
    for_ object_keys (fun obj => delete self obj false)
  else ret tt.

End S3Wrapper.

(** ** The earlier variant, S3Wrapper/*.py

  Only what behaves differently is restated: the credential check, the
  two exception texts of the bucket check, the listing loop and
  [upload], which takes no metadata.  Every other method of
  S3Wrapper/S3Wrapper.py is, up to console markup, the method of the
  same name above. *)

Module Legacy.

Definition default_key_location : M string :=
  fun w => (Ok (home w +:+ "/.s3"), w).

Definition missing_keys_text (key_location access_key_id secret_access_key : string)
  : string :=
  "[red]|ERROR| No key or private key found in " +:+ key_location +:+ " "
  +:+ "Please create files " +:+ access_key_id +:+ " "
  +:+ "and " +:+ secret_access_key.

(** [raise print(...)]: the text goes to the console, [print] returns
    None, and raising None is a TypeError. *)
Definition _read_keys (key_location : string) : M (string * string) :=
  let access_key_id := os_path_join key_location "key" in
  let secret_access_key := os_path_join key_location "private_key" in
  a <- S3Auth.isfile access_key_id ;;
  b <- (if a then S3Auth.isfile secret_access_key else ret false) ;;
  if negb b then
    print (NText (missing_keys_text key_location access_key_id secret_access_key)) ;;;
    raise (TypeError "exceptions must derive from BaseException")
  else
    x <- S3Auth._file_read access_key_id ;;
    y <- S3Auth._file_read secret_access_key ;;
    ret (x, y).

Definition _client (region : string)
           (access_key secret_access_key : option string) : M Boto3.client :=
  keys <- (if negb (truthy_str access_key) || negb (truthy_str secret_access_key)
           then key_location <- default_key_location ;; _read_keys key_location
           else ret (default "" access_key, default "" secret_access_key)) ;;
  Boto3.new_client (fst keys) (snd keys) region.

Definition S3Auth__init__ (region : string)
           (access_key secret_access_key : option string) : M S3Auth.t :=
  c <- _client region access_key secret_access_key ;;
  ret {| S3Auth.region_name := region; S3Auth.client := c |}.

Definition list_error_message : string :=
  "[red]|ERROR| Error while getting bucket list from aws.".

Definition bucket_not_found_message (bucket_name : string) : string :=
  "[red]|ERROR| Bucket " +:+ bucket_name +:+ " not found.".

Definition buckets_list (client : Boto3.client) : M (list string) :=
  try_ (resp <- Boto3.list_buckets client ;;
        buckets <- subscript (Buckets resp) "Buckets" ;;
        comprehension (fun b => subscript (Name b) "Name") buckets)
       [ (is_KeyError, fun _ => raise (S3Exception list_error_message)) ].

Definition _get_bucket (client : Boto3.client) (bucket_name : string) : M string :=
  names <- buckets_list client ;;
  if bool_decide (bucket_name ∈ names) then ret bucket_name
  else raise (S3Exception (bucket_not_found_message bucket_name)).

Definition __init__ (bucket_name region : string)
           (access_key secret_access_key : option string) : M S3Wrapper.t :=
  auth <- S3Auth__init__ region access_key secret_access_key ;;
  b <- _get_bucket (S3Auth.client auth) bucket_name ;;
  ret {| S3Wrapper.s3 := S3Auth.client auth; S3Wrapper.bucket := b |}.

Definition get_objects (self : S3Wrapper.t) : M (list string) :=
  pages <- Boto3.paginate (S3Wrapper.s3 self) (S3Wrapper.bucket self) ;;
  let file_names :=
    fold_left (fun acc page =>
                 match Contents page with
                 | Some objs => fold_left (fun a obj => (a ++ [Key obj])%list) objs acc
                 | None => acc
                 end) pages [] in
  S3Wrapper.when (bool_decide (file_names = [])) (print NBucketEmpty) ;;;
  ret file_names.

Definition get_files (self : S3Wrapper.t) (s3_dir : option string) : M (list string) :=
  s3_objects <- get_objects self ;;
  match s3_dir with
  | Some dir =>
      ret (List.filter (fun file => startswith file dir && negb (endswith file "/"))
                       s3_objects)
  | None => ret (List.filter (fun file => negb (endswith file "/")) s3_objects)
  end.

Definition upload (self : S3Wrapper.t) (file_path object_key : string)
           (stdout : bool) : M unit :=
  S3Wrapper.when stdout
    (print (NUploading (basename file_path) (S3Wrapper.bucket self) object_key)) ;;;
  Boto3.upload_file (S3Wrapper.s3 self) file_path (S3Wrapper.bucket self)
                    object_key None.

End Legacy.

(** ** Sample worlds, used to run the model *)

Module Sample.

Definition obj (body : string) : S3Object :=
  {| obj_body := body; obj_metadata := ∅; obj_last_modified := 0 |}.

Definition no_faults : nat -> sdk_call -> option exn := fun _ _ => None.

Definition tagged : S3Object :=
  {| obj_body := "report";
     obj_metadata := {[ "owner" := "ops"; "stage" := "draft" ]};
     obj_last_modified := 0 |}.

(** A bucket "b" with four keys, a local file, an operator who types
    "no", and a service that answers every call. *)
Definition w0 : world :=
  {| home := "/home/u";
     fs := {[ "/tmp/f" := "abc" ]};
     store := {[ "b" := {[ "a" := obj "x"; "dir/" := obj ""; "dir/f" := obj "yy";
                           "doc" := tagged ]} ]};
     buckets_output := {| Buckets := Some [ {| Name := Some "b" |} ] |};
     page_size := 1;
     stdin := ["no"];
     faults := no_faults;
     tick := 0;
     trace := [] |}.

Definition with_faults (f : nat -> sdk_call -> option exn) (w : world) : world :=
  {| home := home w; fs := fs w; store := store w;
     buckets_output := buckets_output w; page_size := page_size w;
     stdin := stdin w; faults := f; tick := tick w; trace := trace w |}.

Definition with_buckets_output (o : ListBucketsOutput) (w : world) : world :=
  {| home := home w; fs := fs w; store := store w;
     buckets_output := o; page_size := page_size w;
     stdin := stdin w; faults := faults w; tick := tick w; trace := trace w |}.

(** The service refuses the first call, whatever it is. *)
Definition first_call_fails (e : exn) : nat -> sdk_call -> option exn :=
  fun n _ => match n with O => Some e | S _ => None end.


Definition client : Boto3.client :=
  {| Boto3.region_name := "us-east-1"; Boto3.aws_access_key_id := "AKIA";
     Boto3.aws_secret_access_key := "secret" |}.

Definition self : S3Wrapper.t := {| S3Wrapper.s3 := client; S3Wrapper.bucket := "b" |}.

End Sample.

(** ** Observations on a world, used to state the properties *)

Module Obs.

Import S3Wrapper.



Definition count (p : event -> bool) (w : world) : nat :=
  length (List.filter p (trace w)).

Definition after_head (self : t) (key : string) (w : world) : world :=
  log (ECall (head_object_call (bucket self) key)) (bump w).

Definition noted (stderr : bool) (n : notice) (w : world) : world :=
  if stderr then log (EPrint n) w else w.


(** A text names another when the other occurs in it. *)
Definition names (text part : string) : Prop :=
  exists before after, text = before +:+ part +:+ after.

(** The names a bucket listing carries when it has the expected shape: the
    'Buckets' member is there and so is the 'Name' of each of its entries. *)
Definition listed_names (out : ListBucketsOutput) : option (list string) :=
  buckets ← Buckets out; mapM Name buckets.

End Obs.
Export Obs.

(** ** Further observations and sample worlds *)

Module More.

Import S3Wrapper.




(** A method that only reads: the store, the files and the pending input
    are what they were. *)
Definition untouched (w w' : world) : Prop :=
  store w' = store w /\ fs w' = fs w /\ stdin w' = stdin w.

(** The sample world with the two credential files in place, each with
    white space around its value. *)
Definition key_file_text : string := "AKIA123
".
Definition secret_file_text : string := "  s3cr3t	
".

Definition w_keys : world :=
  set_fs (<[ "/home/u/.s3/key" := key_file_text ]>
            (<[ "/home/u/.s3/private_key" := secret_file_text ]> (fs Sample.w0)))
         Sample.w0.

(** What bucket "b" holds in the sample world. *)
Definition b_objects : gmap string S3Object :=
  {[ "a" := Sample.obj "x"; "dir/" := Sample.obj ""; "dir/f" := Sample.obj "yy";
     "doc" := Sample.tagged ]}.

(** The sample world with bucket "b" emptied. *)
Definition w_empty : world := set_store {[ "b" := ∅ ]} Sample.w0.

Definition client_of (region access_key secret_access_key : string) : Boto3.client :=
  {| Boto3.region_name := region; Boto3.aws_access_key_id := access_key;
     Boto3.aws_secret_access_key := secret_access_key |}.

End More.
Export More.

(** * Properties *)

Import S3Wrapper.
Local Open Scope list_scope.

Arguments SHA256.hexdigest : simpl never.

(** ** The SHA-256 model against the standard test vectors *)

Example sha256_constants :
  hd 0 SHA256.K = 0x428a2f98 /\ last SHA256.K = Some 0xc67178f2
  /\ length SHA256.K = 64%nat
  /\ hd 0 SHA256.H0 = 0x6a09e667 /\ last SHA256.H0 = Some 0x5be0cd19.
Proof. repeat split. Qed.

Example sha256_empty :
  SHA256.hexdigest "" = "e3b0c44298fc1c149afbf4c8996fb92427ae41e4649b934ca495991b7852b855".
Proof. vm_compute. reflexivity. Qed.


Example sha256_two_blocks :
  SHA256.hexdigest "abcdbcdecdefdefgefghfghighijhijkijkljklmklmnlmnomnopnopq"
  = "248d6a61d20638b8e5c026930c3e6039a33ce45964ff2167f6ecedd419db06c1".
Proof. vm_compute. reflexivity. Qed.

(** ** The world: projections, faults, reliability *)

Lemma call_fault {A} c (normal : M A) w e :
  faults w (tick w) c = Some e ->
  Boto3.call c normal w = (Raise e, log (ECall c) (bump w)).
Proof. intros H. unfold Boto3.call. now rewrite H. Qed.

Lemma call_answered {A} c (normal : M A) w :
  faults w (tick w) c = None ->
  Boto3.call c normal w = normal (log (ECall c) (bump w)).
Proof. intros H. unfold Boto3.call. now rewrite H. Qed.



(** ** [get_headers]: the workhorse of most methods *)

Lemma get_headers_eq self key stderr w :
  get_headers self key stderr w =
  match faults w (tick w) (head_object_call (bucket self) key) with
  | Some e =>
      (Ok False_,
       noted stderr (if is_ClientError e then NObjectNotFound key else NHeadersError e)
             (after_head self key w))
  | None =>
      match Boto3.lookup_object (bucket self) key w with
      | Some o => (Ok (Headers (Boto3.headers_of o)), after_head self key w)
      | None => (Ok False_, noted stderr (NObjectNotFound key) (after_head self key w))
      end
  end.
Proof.
  unfold get_headers, try_, bind, Boto3.head_object, Boto3.call, after_head, noted.
  destruct (faults w (tick w) _) as [e|].
  - destruct e, stderr; reflexivity.
  - change (Boto3.lookup_object (bucket self) key (log _ (bump w)))
      with (Boto3.lookup_object (bucket self) key w).
    destruct (Boto3.lookup_object (bucket self) key w); [reflexivity|].
    destruct stderr; reflexivity.
Qed.


(** ** [get_size] *)

Lemma get_size_eq self key w :
  get_size self key w =
  (match fst (get_headers self key true w) with
   | Ok (Headers h) => Ok (ContentLength h)
   | Ok False_ => Ok 0
   | Raise e => Raise e
   end, snd (get_headers self key true w)).
Proof.
  unfold get_size, bind, ret.
  destruct (get_headers self key true w) as [[[h|]|e] w']; reflexivity.
Qed.



(** ** [download] *)

Lemma download_eq (self : t) (key path : string) (stdout : bool) (w : world) :
  let w0 := if stdout then log (EPrint (NDownloading (bucket self) key path)) w else w in
  let w1 := log (ECall (download_file_call (bucket self) key path)) (bump w0) in
  download self key path stdout w =
  match faults w (tick w) (download_file_call (bucket self) key path) with
  | Some e =>
      if is_ClientError e then (Ok false, log (EPrint (NObjectNotFound key)) w1)
      else (Raise e, w1)
  | None =>
      match Boto3.lookup_object (bucket self) key w with
      | Some o => (Ok true, set_fs (<[path := obj_body o]> (fs w)) w1)
      | None => (Ok false, log (EPrint (NObjectNotFound key)) w1)
      end
  end.
Proof.
  unfold download, try_, bind, when, print, ret, Boto3.download_file, Boto3.call.
  destruct stdout; cbn.
  all: destruct (faults w (tick w) _) as [e|]; [destruct e; reflexivity|].
  all: unfold Boto3.lookup_object; cbn.
  all: destruct (store w !! bucket self) as [objs|]; cbn; [|reflexivity].
  all: destruct (objs !! key); reflexivity.
Qed.




(** ** Stores *)

Lemma lookup_object_Some bucket key w o :
  Boto3.lookup_object bucket key w = Some o <->
  exists objs, store w !! bucket = Some objs /\ objs !! key = Some o.
Proof.
  unfold Boto3.lookup_object.
  destruct (store w !! bucket) as [objs|]; cbn; split.
  - eauto.
  - intros (objs' & [= <-] & H). exact H.
  - discriminate.
  - intros (objs' & [= ] & _).
Qed.

Lemma lookup_object_put bucket key o objs w :
  Boto3.lookup_object bucket key (Boto3.put bucket key o objs w) = Some o.
Proof.
  unfold Boto3.lookup_object, Boto3.put. cbn.
  rewrite lookup_insert_eq. cbn. apply lookup_insert_eq.
Qed.

(** ** [delete] *)


Lemma delete_object_removes c bucket key w objs :
  faults w (tick w) (delete_object_call bucket key) = None ->
  store w !! bucket = Some objs ->
  Boto3.delete_object c bucket key w
  = (Ok tt, set_store (<[bucket := base.delete key objs]> (store w))
                      (log (ECall (delete_object_call bucket key)) (bump w))).
Proof.
  intros Hf Hb. unfold Boto3.delete_object. rewrite call_answered by exact Hf.
  cbn. rewrite Hb. reflexivity.
Qed.

(** With the flag set, [delete] reads one line and goes on whatever the
    line says: a stored object is gone afterwards. *)
Lemma delete_proceeds_on_any_answer (self : t) (key answer : string)
      (rest : list string) (w : world) (o : S3Object) :
  stdin w = answer :: rest ->
  faults w (tick w) (head_object_call (bucket self) key) = None ->
  faults w (S (tick w)) (delete_object_call (bucket self) key) = None ->
  Boto3.lookup_object (bucket self) key w = Some o ->
  fst (delete self key true w) = Ok tt
  /\ Boto3.lookup_object (bucket self) key (snd (delete self key true w)) = None
  /\ stdin (snd (delete self key true w)) = rest.
Proof.
  intros Hin Hh Hd Ho.
  apply lookup_object_Some in Ho as Ho'. destruct Ho' as (objs & Hb & Hk).
  unfold delete, bind, when, print, ret, Prompt.ask. cbn.
  rewrite Hin. cbn.
  rewrite get_headers_eq. cbn. rewrite Hh.
  unfold Boto3.lookup_object. cbn. rewrite Hb. cbn. rewrite Hk. cbn.
  erewrite delete_object_removes; [|exact Hd|exact Hb].
  cbn. split; [reflexivity|]. split; [|reflexivity].
  rewrite lookup_insert_eq. cbn. apply lookup_delete_eq.
Qed.

(** C1, at the input where it fails.  The bucket holds "a"; [delete] is
    called with the confirmation flag set and the operator types "no".
    The prompt is shown, the answer is read and dropped, and the delete
    call is issued all the same: "a" is gone from the bucket. *)
Theorem C1_delete_goes_on_after_no :
  stdin Sample.w0 = ["no"]
  /\ fst (delete Sample.self "a" true Sample.w0) = Ok tt
  /\ trace (snd (delete Sample.self "a" true Sample.w0))
     = [ EPrint (NDeleting "a" "b"); EAsk delete_question;
         ECall (head_object_call "b" "a"); ECall (delete_object_call "b" "a") ]
  /\ Boto3.lookup_object "b" "a" Sample.w0 = Some (Sample.obj "x")
  /\ Boto3.lookup_object "b" "a" (snd (delete Sample.self "a" true Sample.w0)) = None.
Proof. vm_compute. repeat split. Qed.

(** ** [update_metadata] and [get_metadata] *)

Lemma get_metadata_eq self key w :
  get_metadata self key w =
  (match fst (get_headers self key true w) with
   | Ok (Headers h) => Ok (Some (Metadata h))
   | Ok False_ => Ok None
   | Raise e => Raise e
   end, snd (get_headers self key true w)).
Proof.
  unfold get_metadata, bind, ret.
  destruct (get_headers self key true w) as [[[h|]|e] w']; reflexivity.
Qed.

(** The world in which [update_metadata] reaches the copy call. *)
Lemma update_metadata_present (self : t) (key : string) (meta : metadata)
      (stdout : bool) (w : world) (o : S3Object) :
  faults w (tick w) (head_object_call (bucket self) key) = None ->
  Boto3.lookup_object (bucket self) key w = Some o ->
  let w1 := noted stdout (NUpdatingMetadata (bucket self) key) (after_head self key w) in
  let c := copy_object_call (bucket self) key (bucket self) key meta REPLACE in
  update_metadata self key meta stdout w =
  match faults w (S (tick w)) c with
  | Some e => (Ok false, log (EPrint (NUpdateFailed e)) (log (ECall c) (bump w1)))
  | None =>
      (Ok true,
       Boto3.put (bucket self) key
         {| obj_body := obj_body o; obj_metadata := meta;
            obj_last_modified := Z.of_nat (S (S (tick w))) |}
         (default ∅ (store w !! bucket self)) (log (ECall c) (bump w1)))
  end.
Proof.
  intros Hh Ho. apply lookup_object_Some in Ho as Ho'. destruct Ho' as (objs & Hb & Hk).
  unfold update_metadata, bind. rewrite get_headers_eq, Hh, Ho. cbn.
  unfold try_, bind, when, print, ret, Boto3.copy_object, Boto3.call, noted.
  destruct stdout; cbn.
  all: destruct (faults w (S (tick w)) _) as [e|]; [reflexivity|].
  all: unfold Boto3.lookup_object; cbn; rewrite Hb; cbn; rewrite Hk; reflexivity.
Qed.



(** ** [upload] and [get_sha256] *)

Lemma get_sha256_eq (self : t) (key : string) (w : world) :
  let w1 := log (ECall (get_object_call (bucket self) key)) (bump w) in
  let w2 := log (ECall (body_read_call (bucket self) key)) (bump w1) in
  get_sha256 self key w =
  match faults w (tick w) (get_object_call (bucket self) key) with
  | Some e => (Ok None, log (EPrint (NRetrieveError e)) w1)
  | None =>
      match Boto3.lookup_object (bucket self) key w with
      | None => (Ok None, log (EPrint (NRetrieveError (ClientError "NoSuchKey"))) w1)
      | Some o =>
          match faults w (S (tick w)) (body_read_call (bucket self) key) with
          | Some e => (Ok None, log (EPrint (NRetrieveError e)) w2)
          | None => (Ok (Some (SHA256.hexdigest (obj_body o))), w2)
          end
      end
  end.
Proof.
  unfold get_sha256, try_, bind, print, ret, Boto3.get_object, Boto3.read, Boto3.call.
  destruct (faults w (tick w) _) as [e|]; [reflexivity|].
  unfold Boto3.lookup_object. cbn.
  destruct (store w !! bucket self) as [objs|]; cbn; [|reflexivity].
  destruct (objs !! key) as [o|]; cbn; [|reflexivity].
  destruct (faults w (S (tick w)) _); reflexivity.
Qed.


(** S3Wrapper/S3Wrapper.py's [upload] is [upload] without metadata. *)
Lemma legacy_upload_same (self : t) (file_path key : string) (stdout : bool) (w : world) :
  Legacy.upload self file_path key stdout w = upload self file_path key stdout None w.
Proof. reflexivity. Qed.




(** ** Credentials *)

Lemma app_assoc_string (a b c : string) : (a +:+ b) +:+ c = a +:+ (b +:+ c).
Proof.
  induction a as [|x a IH]; [reflexivity|].
  change (String x ((a +:+ b) +:+ c) = String x (a +:+ (b +:+ c))).
  now rewrite IH.
Qed.

Lemma missing_keys_message_names (key_location p1 p2 : string) :
  names (S3Auth.missing_keys_message key_location p1 p2) key_location
  /\ names (S3Auth.missing_keys_message key_location p1 p2) p1
  /\ names (S3Auth.missing_keys_message key_location p1 p2) p2.
Proof.
  unfold names, S3Auth.missing_keys_message. split; [|split].
  - eexists _, _. reflexivity.
  - exists ("[red]|ERROR| No key or private key found in " +:+ key_location +:+ ". "
            +:+ "Please create files "), (" and " +:+ p2 +:+ ".").
    now rewrite !app_assoc_string.
  - exists ("[red]|ERROR| No key or private key found in " +:+ key_location +:+ ". "
            +:+ "Please create files " +:+ p1 +:+ " and "), ".".
    now rewrite !app_assoc_string.
Qed.

Lemma isfile_pair_missing (p1 p2 : string) (w : world) :
  fs w !! p1 = None \/ fs w !! p2 = None ->
  (if bool_decide (is_Some (fs w !! p1)) then bool_decide (is_Some (fs w !! p2)) else false)
  = false.
Proof.
  intros [H|H]; rewrite H.
  - reflexivity.
  - destruct (bool_decide _); [|reflexivity].
    apply bool_decide_eq_false. intros [x Hx]. discriminate.
Qed.

(** s3wrapper/S3Auth.py: a missing file is a FileNotFoundError whose text
    is [missing_keys_message]; nothing is printed. *)
Lemma read_keys_missing (key_location : string) (w : world) :
  fs w !! os_path_join key_location "key" = None
  \/ fs w !! os_path_join key_location "private_key" = None ->
  S3Auth._read_keys key_location w
  = (Raise (FileNotFoundError
              (S3Auth.missing_keys_message key_location
                 (os_path_join key_location "key")
                 (os_path_join key_location "private_key"))), w).
Proof.
  intros H. apply isfile_pair_missing in H.
  unfold S3Auth._read_keys, bind, ret, raise, S3Auth.isfile.
  destruct (bool_decide (is_Some (fs w !! os_path_join key_location "key")));
    cbn in *; [rewrite H|]; reflexivity.
Qed.

(** S3Wrapper/S3Auth.py: the text is printed and what is raised is the
    TypeError of [raise None]. *)
Lemma legacy_read_keys_missing (key_location : string) (w : world) :
  fs w !! os_path_join key_location "key" = None
  \/ fs w !! os_path_join key_location "private_key" = None ->
  Legacy._read_keys key_location w
  = (Raise (TypeError "exceptions must derive from BaseException"),
     log (EPrint (NText (Legacy.missing_keys_text key_location
                           (os_path_join key_location "key")
                           (os_path_join key_location "private_key")))) w).
Proof.
  intros H. apply isfile_pair_missing in H.
  unfold Legacy._read_keys, bind, ret, raise, print, S3Auth.isfile.
  destruct (bool_decide (is_Some (fs w !! os_path_join key_location "key")));
    cbn in *; [rewrite H|]; reflexivity.
Qed.

(** The current [S3Auth] fails as C2 says whenever the two values are not
    both passed and a file is missing at the default location. *)
Lemma auth_init_missing (region : string) (access_key secret_access_key : option string)
      (w : world) :
  let key_location := os_path_join (home w) ".s3" in
  truthy_str access_key && truthy_str secret_access_key = false ->
  fs w !! os_path_join key_location "key" = None
  \/ fs w !! os_path_join key_location "private_key" = None ->
  exists msg,
    S3Auth.__init__ region access_key secret_access_key w = (Raise (FileNotFoundError msg), w)
    /\ names msg key_location
    /\ names msg (os_path_join key_location "key")
    /\ names msg (os_path_join key_location "private_key").
Proof.
  cbv zeta. intros Hk Hm. eexists. split; [|apply missing_keys_message_names].
  unfold S3Auth.__init__, S3Auth._create_client, bind, S3Auth.default_key_location.
  replace (negb (truthy_str access_key) || negb (truthy_str secret_access_key))
    with true by (destruct (truthy_str access_key), (truthy_str secret_access_key);
                  cbn in *; congruence).
  rewrite (read_keys_missing _ _ Hm). reflexivity.
Qed.

Lemma legacy_auth_init_missing (region : string)
      (access_key secret_access_key : option string) (w : world) :
  let key_location := home w +:+ "/.s3" in
  truthy_str access_key && truthy_str secret_access_key = false ->
  fs w !! os_path_join key_location "key" = None
  \/ fs w !! os_path_join key_location "private_key" = None ->
  fst (Legacy.S3Auth__init__ region access_key secret_access_key w)
  = Raise (TypeError "exceptions must derive from BaseException").
Proof.
  cbv zeta. intros Hk Hm.
  unfold Legacy.S3Auth__init__, Legacy._client, bind, Legacy.default_key_location.
  replace (negb (truthy_str access_key) || negb (truthy_str secret_access_key))
    with true by (destruct (truthy_str access_key), (truthy_str secret_access_key);
                  cbn in *; congruence).
  rewrite (legacy_read_keys_missing _ _ Hm). reflexivity.
Qed.

(** C2, at the input where the earlier variant fails.  No credentials are
    passed and /home/u/.s3 holds no file.  s3wrapper/S3Auth.py raises the
    FileNotFoundError whose text names the directory and both files.
    S3Wrapper/S3Auth.py prints that text and raises a TypeError, since
    what it raises is the None that [print] returns. *)
Theorem C2_legacy_auth_raises_type_error :
  fs Sample.w0 !! "/home/u/.s3/key" = None
  /\ S3Auth.__init__ "us-east-1" None None Sample.w0
     = (Raise (FileNotFoundError
                 ("[red]|ERROR| No key or private key found in /home/u/.s3. "
                  +:+ "Please create files /home/u/.s3/key and /home/u/.s3/private_key.")),
        Sample.w0)
  /\ Legacy.S3Auth__init__ "us-east-1" None None Sample.w0
     = (Raise (TypeError "exceptions must derive from BaseException"),
        log (EPrint (NText
               ("[red]|ERROR| No key or private key found in /home/u/.s3 "
                +:+ "Please create files /home/u/.s3/key and /home/u/.s3/private_key")))
            Sample.w0).
Proof. split; [|split]; vm_compute; reflexivity. Qed.

(** ** Construction and the bucket check *)

Lemma auth_init_reads_only (region : string) (access_key secret_access_key : option string)
      (w : world) :
  snd (S3Auth.__init__ region access_key secret_access_key w) = w.
Proof.
  unfold S3Auth.__init__, S3Auth._create_client, S3Auth._read_keys, bind, ret, raise,
    S3Auth.default_key_location, S3Auth.isfile, S3Auth._file_read, Boto3.new_client.
  destruct (negb _ || negb _); [|reflexivity]. cbn.
  destruct (bool_decide _); cbn; [|reflexivity].
  destruct (bool_decide _); cbn; [|reflexivity].
  destruct (fs w !! _); cbn; [|reflexivity].
  destruct (fs w !! _); reflexivity.
Qed.

Lemma comprehension_names (buckets : list Bucket) (w : world) :
  comprehension (fun b => subscript (Name b) "Name") buckets w
  = (match mapM Name buckets with
     | Some l => Ok l
     | None => Raise (KeyError "Name")
     end, w).
Proof.
  induction buckets as [|b bs IH]; [reflexivity|].
  cbn. unfold bind at 1. destruct (Name b) as [n|]; cbn; [|reflexivity].
  unfold bind at 1. rewrite IH. destruct (mapM Name bs); reflexivity.
Qed.

Lemma buckets_list_eq (client : Boto3.client) (w : world) :
  faults w (tick w) list_buckets_call = None ->
  buckets_list client w
  = (match listed_names (buckets_output w) with
     | Some l => Ok l
     | None => Raise (S3Exception list_error_message)
     end, log (ECall list_buckets_call) (bump w)).
Proof.
  intros Hf. unfold buckets_list, try_, bind at 1, Boto3.list_buckets.
  rewrite call_answered by exact Hf. cbn.
  unfold listed_names, bind. destruct (Buckets (buckets_output w)) as [bs|]; cbn;
    [|reflexivity].
  rewrite comprehension_names. destruct (mapM Name bs); reflexivity.
Qed.

(** A listing has the expected shape exactly when it is a list of names. *)
Lemma listed_names_Some (out : ListBucketsOutput) (l : list string) :
  listed_names out = Some l <->
  Buckets out = Some ((fun n => {| Name := Some n |}) <$> l).
Proof.
  unfold listed_names. destruct (Buckets out) as [bs|]; cbn; [|split; discriminate].
  rewrite mapM_Some. split.
  - intros H. f_equal. induction H as [|b n bs' l' Hn _ IH]; [reflexivity|].
    destruct b as [nm]. cbn in Hn. subst nm. cbn. now rewrite IH.
  - intros [= ->]. induction l; constructor; auto.
Qed.

Lemma listed_names_None (out : ListBucketsOutput) :
  listed_names out = None <->
  Buckets out = None
  \/ exists bs b, Buckets out = Some bs /\ b ∈ bs /\ Name b = None.
Proof.
  unfold listed_names. destruct (Buckets out) as [bs|]; cbn.
  - split.
    + intros H. right. exists bs.
      induction bs as [|b bs IH]; [discriminate|].
      cbn in H. destruct (Name b) eqn:Hb; cbn in H.
      * destruct (mapM Name bs) eqn:Hm; [discriminate|].
        destruct (IH eq_refl) as (b' & _ & Hin & Hn).
        exists b'. split; [reflexivity|]. split; [now right|exact Hn].
      * exists b. split; [reflexivity|]. split; [now left|exact Hb].
    + intros [[=]|(bs' & b & [= <-] & Hin & Hn)].
      destruct (mapM Name bs) eqn:Hm; [|reflexivity].
      apply mapM_Some in Hm. apply list_elem_of_lookup in Hin as [i Hi].
      destruct (Forall2_lookup_l _ _ _ _ _ Hm Hi) as (n & _ & Hn').
      congruence.
  - split; [now left|reflexivity].
Qed.

Lemma bucket_messages_differ (bucket_name : string) :
  list_error_message <> bucket_not_found_message bucket_name.
Proof. unfold list_error_message, bucket_not_found_message. discriminate. Qed.

(** C4. Once the credentials are resolved and the service answers the
    listing, constructing the wrapper raises the S3Exception "Bucket ...
    not found." for every name that the listing does not carry, and the
    S3Exception "Error while getting bucket list from AWS." when the
    response has not the expected shape (the 'Buckets' member, or the
    'Name' of an entry, is missing).  The two failures differ for every
    bucket name. *)
Theorem C4_init_bucket_check
        (bucket_name region : string) (access_key secret_access_key : option string)
        (w : world) (auth : S3Auth.t) :
  fst (S3Auth.__init__ region access_key secret_access_key w) = Ok auth ->
  faults w (tick w) list_buckets_call = None ->
  (forall l,
      Buckets (buckets_output w) = Some ((fun n => {| Name := Some n |}) <$> l) ->
      bucket_name ∉ l ->
      fst (__init__ bucket_name region access_key secret_access_key w)
      = Raise (S3Exception (bucket_not_found_message bucket_name)))
  /\ (Buckets (buckets_output w) = None
      \/ (exists bs b, Buckets (buckets_output w) = Some bs /\ b ∈ bs /\ Name b = None) ->
      fst (__init__ bucket_name region access_key secret_access_key w)
      = Raise (S3Exception list_error_message))
  /\ list_error_message <> bucket_not_found_message bucket_name.
Proof.
  intros Hauth Hf.
  assert (Hinit : __init__ bucket_name region access_key secret_access_key w
                  = bind (_check_bucket_name (S3Auth.client auth) bucket_name)
                         (fun b => ret {| s3 := S3Auth.client auth; bucket := b |}) w).
  { unfold __init__. unfold bind at 1.
    pose proof (auth_init_reads_only region access_key secret_access_key w) as Hw.
    destruct (S3Auth.__init__ region access_key secret_access_key w) as [r w'].
    cbn in Hauth, Hw. subst. reflexivity. }
  assert (Hres : fst (__init__ bucket_name region access_key secret_access_key w)
                 = match listed_names (buckets_output w) with
                   | Some l =>
                       if bool_decide (bucket_name ∈ l)
                       then Ok {| s3 := S3Auth.client auth; bucket := bucket_name |}
                       else Raise (S3Exception (bucket_not_found_message bucket_name))
                   | None => Raise (S3Exception list_error_message)
                   end).
  { rewrite Hinit. unfold bind at 1, _check_bucket_name, bind at 1.
    rewrite buckets_list_eq by exact Hf.
    destruct (listed_names (buckets_output w)) as [l|]; [|reflexivity].
    destruct (bool_decide (bucket_name ∈ l)); reflexivity. }
  rewrite Hres. clear Hinit Hres.
  split; [|split].
  - intros l Hl Hnot. apply listed_names_Some in Hl. rewrite Hl.
    rewrite bool_decide_eq_false_2 by exact Hnot. reflexivity.
  - intros Hbad. apply listed_names_None in Hbad. rewrite Hbad. reflexivity.
  - apply bucket_messages_differ.
Qed.

Lemma C4_init_bucket_check_witness :
  fst (__init__ "c" "us-east-1" (Some "AKIA") (Some "secret") Sample.w0)
  = Raise (S3Exception (bucket_not_found_message "c"))
  /\ fst (__init__ "b" "us-east-1" (Some "AKIA") (Some "secret")
            (Sample.with_buckets_output {| Buckets := None |} Sample.w0))
     = Raise (S3Exception list_error_message)
  /\ fst (__init__ "b" "us-east-1" (Some "AKIA") (Some "secret")
            (Sample.with_buckets_output
               {| Buckets := Some [ {| Name := Some "b" |}; {| Name := None |} ] |}
               Sample.w0))
     = Raise (S3Exception list_error_message).
Proof.
  split; [|split].
  - refine (proj1 (C4_init_bucket_check "c" "us-east-1" (Some "AKIA") (Some "secret")
                     Sample.w0 _ eq_refl eq_refl) ["b"] eq_refl _).
    intros H. apply list_elem_of_singleton in H. discriminate.
  - refine (proj1 (proj2 (C4_init_bucket_check "b" "us-east-1" (Some "AKIA")
                            (Some "secret")
                            (Sample.with_buckets_output {| Buckets := None |} Sample.w0)
                            _ eq_refl eq_refl)) _).
    left. reflexivity.
  - refine (proj1 (proj2 (C4_init_bucket_check "b" "us-east-1" (Some "AKIA")
                            (Some "secret")
                            (Sample.with_buckets_output
                               {| Buckets := Some [ {| Name := Some "b" |};
                                                    {| Name := None |} ] |} Sample.w0)
                            _ eq_refl eq_refl)) _).
    right. exists [ {| Name := Some "b" |}; {| Name := None |} ], {| Name := None |}.
    split; [reflexivity|]. split; [|reflexivity].
    apply list_elem_of_In. right. left. reflexivity.
Defined.

(** ** Strings: what [startswith] and [endswith] decide *)

Lemma startswith_spec (s p : string) :
  startswith s p = true <-> exists rest, s = p +:+ rest.
Proof.
  unfold startswith. revert s. induction p as [|a p IH]; intros s.
  - destruct s; cbn; split; eauto.
  - destruct s as [|b s]; cbn.
    + split; [discriminate|]. intros [rest H]. discriminate H.
    + destruct (ascii_dec a b) as [->|Hne].
      * rewrite IH. split; intros [rest H]; exists rest.
        -- change (String b s = String b (p +:+ rest)). now rewrite H.
        -- change (String b s = String b (p +:+ rest)) in H. now injection H.
      * split; [discriminate|]. intros [rest H].
        change (String b s = String a (p +:+ rest)) in H. congruence.
Qed.

Lemma length_append (a b : string) :
  String.length (a +:+ b) = (String.length a + String.length b)%nat.
Proof.
  induction a as [|x a IH]; [reflexivity|].
  change (S (String.length (a +:+ b)) = S (String.length a + String.length b)).
  now rewrite IH.
Qed.

Lemma substring_whole (s : string) : substring 0 (String.length s) s = s.
Proof. induction s as [|x s IH]; [reflexivity|]. cbn. now rewrite IH. Qed.

Lemma substring_skip (a b : string) (m : nat) :
  substring (String.length a) m (a +:+ b) = substring 0 m b.
Proof. induction a as [|x a IH]; [reflexivity|]. exact IH. Qed.

Lemma substring_split (s : string) (n : nat) :
  (n <= String.length s)%nat ->
  s = substring 0 n s +:+ substring n (String.length s - n) s.
Proof.
  revert n. induction s as [|x s IH]; intros n Hn.
  - destruct n; [reflexivity|]. cbn in Hn. lia.
  - destruct n as [|n].
    + cbn [substring String.length Nat.sub]. now rewrite substring_whole.
    + cbn in Hn. cbn [substring String.length Nat.sub].
      change (String x s = String x (substring 0 n s +:+ substring n (String.length s - n) s)).
      f_equal. apply IH. lia.
Qed.

Lemma endswith_spec (s suf : string) :
  endswith s suf = true <-> exists front, s = front +:+ suf.
Proof.
  unfold endswith. split.
  - destruct (Nat.leb_spec (String.length suf) (String.length s)) as [Hle|];
      [|discriminate].
    intros H. apply String.eqb_eq in H.
    exists (substring 0 (String.length s - String.length suf) s).
    pose proof (substring_split s (String.length s - String.length suf)) as Hs.
    replace (String.length s - (String.length s - String.length suf))%nat
      with (String.length suf) in Hs by lia.
    rewrite H in Hs. apply Hs. lia.
  - intros [front ->]. rewrite length_append.
    destruct (Nat.leb_spec (String.length suf) (String.length front + String.length suf));
      [|lia].
    replace (String.length front + String.length suf - String.length suf)%nat
      with (String.length front) by lia.
    rewrite substring_skip, substring_whole. apply String.eqb_refl.
Qed.

(** ** Listings *)

Lemma chunks_concat {A} (size fuel : nat) (l : list A) :
  (length l <= fuel)%nat -> concat (chunks fuel (S size) l) = l.
Proof.
  revert l. induction fuel as [|fuel IH]; intros l Hl.
  - destruct l; [reflexivity|]. cbn in Hl. lia.
  - destruct l as [|x l]; [reflexivity|].
    change (concat (chunks (S fuel) (S size) (x :: l)))
      with (take (S size) (x :: l) ++ concat (chunks fuel (S size) (drop (S size) (x :: l)))).
    rewrite IH.
    + apply take_drop.
    + cbn [drop]. rewrite length_drop. cbn in Hl. lia.
Qed.

Lemma fold_pages (cs : list (list ObjectSummary)) (acc : list string) :
  fold_left (fun acc page =>
               match Contents page with
               | Some objs => acc ++ map Key objs
               | None => acc
               end) ((fun c => {| Contents := Some c |}) <$> cs) acc
  = acc ++ map Key (concat cs).
Proof.
  revert acc. induction cs as [|c cs IH]; intros acc; cbn.
  - now rewrite app_nil_r.
  - rewrite IH, map_app, app_assoc. reflexivity.
Qed.

Lemma fold_pages_of (size : nat) (l : list ObjectSummary) :
  fold_left (fun acc page =>
               match Contents page with
               | Some objs => acc ++ map Key objs
               | None => acc
               end) (Boto3.pages_of size l) []
  = map Key l.
Proof.
  unfold Boto3.pages_of. destruct l as [|x l]; [reflexivity|].
  rewrite fold_pages, chunks_concat by lia. reflexivity.
Qed.

Lemma listed_iff_stored (objs : gmap string S3Object) (k : string) :
  k ∈ map Key (Boto3.summaries objs) <-> is_Some (objs !! k).
Proof.
  unfold Boto3.summaries.
  change (map Key) with (fmap (M := list) Key). rewrite <- list_fmap_compose.
  rewrite list_elem_of_fmap. split.
  - intros ([k' o] & -> & Hin). rewrite merge_sort_Permutation in Hin.
    apply elem_of_map_to_list in Hin. cbn. eauto.
  - intros [o Ho]. exists (k, o). split; [reflexivity|].
    rewrite merge_sort_Permutation. now apply elem_of_map_to_list.
Qed.


Lemma legacy_get_objects_same (self : t) (w : world) :
  Legacy.get_objects self w = get_objects self w.
Proof.
  unfold Legacy.get_objects, get_objects, bind.
  destruct (Boto3.paginate (s3 self) (bucket self) w) as [[pages|e] w']; [|reflexivity].
  assert (Hin : forall objs acc,
             fold_left (fun a obj => a ++ [Key obj]) objs acc = acc ++ map Key objs).
  { induction objs as [|o objs IH]; intros acc; cbn.
    - now rewrite app_nil_r.
    - rewrite IH, <- app_assoc. reflexivity. }
  assert (Hout : forall acc,
             fold_left (fun acc page =>
                          match Contents page with
                          | Some objs => fold_left (fun a obj => a ++ [Key obj]) objs acc
                          | None => acc
                          end) pages acc
             = fold_left (fun acc page =>
                            match Contents page with
                            | Some objs => acc ++ map Key objs
                            | None => acc
                            end) pages acc).
  { induction pages as [|p pages IH]; intros acc; [reflexivity|].
    cbn. rewrite IH. destruct (Contents p); [now rewrite Hin|reflexivity]. }
  rewrite Hout. reflexivity.
Qed.

Lemma legacy_get_files_same (self : t) (s3_dir : option string) (w : world) :
  Legacy.get_files self s3_dir w = get_files self s3_dir w.
Proof.
  unfold Legacy.get_files, get_files, bind. now rewrite legacy_get_objects_same.
Qed.

Lemma filter_sublist {A} (f : A -> bool) (l : list A) : sublist (List.filter f l) l.
Proof.
  induction l as [|x l IH]; cbn; [constructor|].
  destruct (f x); now constructor.
Qed.

(** C8. Whatever [get_objects] lists, [get_files] answers the keys of that
    listing that do not end in "/" and, when a prefix is given, start with
    it: no other key, each such key, in the order of the listing.  When
    the listing fails, so does [get_files]. *)
Theorem C8_get_files_filters (self : t) (s3_dir : option string) (w : world) :
  match get_objects self w with
  | (Ok listing, w') =>
      exists files,
        get_files self s3_dir w = (Ok files, w')
        /\ files = List.filter
                     (fun file =>
                        match s3_dir with
                        | Some dir => startswith file dir && negb (endswith file "/")
                        | None => negb (endswith file "/")
                        end) listing
        /\ sublist files listing
        /\ forall k,
            k ∈ files <->
            k ∈ listing
            /\ ~ (exists front, k = front +:+ "/")
            /\ match s3_dir with
               | Some dir => exists rest, k = dir +:+ rest
               | None => True
               end
  | (Raise e, w') => get_files self s3_dir w = (Raise e, w')
  end.
Proof.
  unfold get_files, bind.
  destruct (get_objects self w) as [[listing|e] w']; [|reflexivity].
  exists (List.filter
            (fun file =>
               match s3_dir with
               | Some dir => startswith file dir && negb (endswith file "/")
               | None => negb (endswith file "/")
               end) listing). split; [destruct s3_dir; reflexivity|].
  split; [reflexivity|].
  split; [apply filter_sublist|].
  intros k. rewrite !list_elem_of_In, filter_In.
  destruct s3_dir as [dir|].
  - rewrite andb_true_iff, negb_true_iff, startswith_spec, <- not_true_iff_false,
      endswith_spec. tauto.
  - rewrite negb_true_iff, <- not_true_iff_false, endswith_spec. tauto.
Qed.

Example get_files_sample :
  fst (get_objects Sample.self Sample.w0) = Ok ["a"; "dir/"; "dir/f"; "doc"]
  /\ fst (get_files Sample.self None Sample.w0) = Ok ["a"; "dir/f"; "doc"]
  /\ fst (get_files Sample.self (Some "d") Sample.w0) = Ok ["dir/f"; "doc"]
  /\ fst (get_files Sample.self (Some "dir/") Sample.w0) = Ok ["dir/f"].
Proof. vm_compute. repeat split. Qed.

(** ** [delete_from_list] *)








Lemma delete_from_list_eq (self : t) (keys : list string) (w : world) :
  let answer := Prompt.read_answer (Some ["yes"; "no"]) (Some "no") (stdin w) in
  let w1 := set_stdin (snd answer)
              (log (EAsk continue_question) (log (EPrint (NRemoveList (bucket self) keys)) w)) in
  delete_from_list self keys w =
  match fst answer with
  | Ok a =>
      if String.eqb a "yes" then for_ keys (fun obj => delete self obj false) w1
      else (Ok tt, w1)
  | Raise e => (Raise e, w1)
  end.
Proof.
  unfold delete_from_list, bind, print, Prompt.ask. cbn.
  destruct (Prompt.read_answer _ _ (stdin w)) as [[a|e] rest]; [|reflexivity].
  cbn. destruct (String.eqb a "yes"); reflexivity.
Qed.

(** A blank line is the default, "no"; anything but the two choices is
    asked again. *)
Example read_answer_samples :
  Prompt.read_answer (Some ["yes"; "no"]) (Some "no") [""; "yes"] = (Ok "no", ["yes"])
  /\ Prompt.read_answer (Some ["yes"; "no"]) (Some "no") ["y"; " yes "; "no"]
     = (Ok "yes", ["no"])
  /\ Prompt.read_answer (Some ["yes"; "no"]) (Some "no") ["Yes"] = (Raise EOFError, []).
Proof. repeat split. Qed.




(** * Further properties of the two variants *)

(** ** Credentials *)




Lemma read_keys_present (key_location key_text secret_text : string) (w : world) :
  fs w !! os_path_join key_location "key" = Some key_text ->
  fs w !! os_path_join key_location "private_key" = Some secret_text ->
  S3Auth._read_keys key_location w = (Ok (strip key_text, strip secret_text), w).
Proof.
  unfold S3Auth._read_keys.
  generalize (os_path_join key_location "key") (os_path_join key_location "private_key").
  intros p1 p2 H1 H2.
  unfold bind, ret, S3Auth.isfile, S3Auth._file_read. cbn.
  rewrite H1. rewrite bool_decide_eq_true_2 by eauto.
  cbn. rewrite H2. rewrite bool_decide_eq_true_2 by eauto.
  cbn. rewrite H1, H2. reflexivity.
Qed.







(** ** Construction *)

Lemma buckets_list_fault (client : Boto3.client) (w : world) (e : exn) :
  faults w (tick w) list_buckets_call = Some e ->
  buckets_list client w
  = (Raise (if is_KeyError e then S3Exception list_error_message else e),
     log (ECall list_buckets_call) (bump w)).
Proof.
  intros Hf. unfold buckets_list, try_, bind at 1, Boto3.list_buckets.
  rewrite (call_fault _ _ _ _ Hf). destruct e; reflexivity.
Qed.

Lemma init_result (bucket_name region : string) (access_key secret_access_key : option string)
      (w : world) :
  fst (__init__ bucket_name region access_key secret_access_key w)
  = match fst (S3Auth.__init__ region access_key secret_access_key w) with
    | Raise e => Raise e
    | Ok auth =>
        match faults w (tick w) list_buckets_call with
        | Some e => Raise (if is_KeyError e then S3Exception list_error_message else e)
        | None =>
            match listed_names (buckets_output w) with
            | None => Raise (S3Exception list_error_message)
            | Some l =>
                if bool_decide (bucket_name ∈ l)
                then Ok {| s3 := S3Auth.client auth; bucket := bucket_name |}
                else Raise (S3Exception (bucket_not_found_message bucket_name))
            end
        end
    end.
Proof.
  unfold __init__. unfold bind at 1.
  pose proof (auth_init_reads_only region access_key secret_access_key w) as Hw.
  destruct (S3Auth.__init__ region access_key secret_access_key w) as [[auth|e] w'];
    cbn in Hw; subst w'; [|reflexivity].
  cbn [fst]. unfold bind at 1, _check_bucket_name, bind at 1.
  destruct (faults w (tick w) list_buckets_call) as [e|] eqn:Hf.
  - rewrite (buckets_list_fault _ _ _ Hf). reflexivity.
  - rewrite (buckets_list_eq _ _ Hf).
    destruct (listed_names (buckets_output w)) as [l|]; [|reflexivity].
    destruct (bool_decide (bucket_name ∈ l)); reflexivity.
Qed.

(** X4. Constructing the wrapper succeeds exactly when the credentials
    resolve, the service answers the bucket listing, the listing has the
    expected shape and it carries the bucket name; the wrapper is then
    bound to that very name and to the client of the credentials.  So a
    wrapper never exists for a bucket that was not listed. *)
Theorem X4_init_succeeds_iff_listed
        (bucket_name region : string) (access_key secret_access_key : option string)
        (w : world) (self : t) :
  fst (__init__ bucket_name region access_key secret_access_key w) = Ok self <->
  (exists auth,
      fst (S3Auth.__init__ region access_key secret_access_key w) = Ok auth
      /\ self = {| s3 := S3Auth.client auth; bucket := bucket_name |})
  /\ faults w (tick w) list_buckets_call = None
  /\ exists l, listed_names (buckets_output w) = Some l /\ bucket_name ∈ l.
Proof.
  rewrite init_result. split.
  - destruct (fst (S3Auth.__init__ _ _ _ _)) as [auth|e]; [|discriminate].
    destruct (faults w (tick w) list_buckets_call) as [e|].
    { destruct (is_KeyError e); [discriminate|].
      intros H. exfalso. destruct e; discriminate H. }
    destruct (listed_names (buckets_output w)) as [l|]; [|discriminate].
    destruct (bool_decide (bucket_name ∈ l)) eqn:Hin; [|discriminate].
    intros [= <-]. apply bool_decide_eq_true in Hin.
    split; [eauto|]. split; [reflexivity|]. eauto.
  - intros ((auth & -> & ->) & -> & l & -> & Hin).
    now rewrite bool_decide_eq_true_2.
Qed.

(** X5. A failure of the bucket listing that is not a KeyError (the service
    refuses the call, the network is down) goes through the constructor
    unchanged: it is reported neither as a malformed listing nor as a
    missing bucket. *)
Theorem X5_init_propagates_listing_failure
        (bucket_name region : string) (access_key secret_access_key : option string)
        (w : world) (auth : S3Auth.t) (e : exn) :
  fst (S3Auth.__init__ region access_key secret_access_key w) = Ok auth ->
  faults w (tick w) list_buckets_call = Some e ->
  is_KeyError e = false ->
  fst (__init__ bucket_name region access_key secret_access_key w) = Raise e.
Proof.
  intros Ha Hf He. rewrite init_result, Ha, Hf, He. reflexivity.
Qed.

Lemma X5_init_propagates_listing_failure_witness :
  fst (__init__ "b" "us-east-1" (Some "AKIA") (Some "secret")
         (Sample.with_faults (Sample.first_call_fails (ClientError "AccessDenied"))
                             Sample.w0))
  = Raise (ClientError "AccessDenied").
Proof.
  refine (X5_init_propagates_listing_failure "b" "us-east-1" (Some "AKIA") (Some "secret")
            (Sample.with_faults (Sample.first_call_fails (ClientError "AccessDenied"))
                                Sample.w0) _ (ClientError "AccessDenied")
            eq_refl eq_refl eq_refl).
Defined.

(** ** Listing *)

Lemma get_objects_cases (self : t) (w : world) :
  let w1 := log (ECall (paginate_call (bucket self))) (bump w) in
  get_objects self w =
  match faults w (tick w) (paginate_call (bucket self)) with
  | Some e => (Raise e, w1)
  | None =>
      match store w !! bucket self with
      | None => (Raise (ClientError "NoSuchBucket"), w1)
      | Some objs =>
          (Ok (map Key (Boto3.summaries objs)),
           if bool_decide (map Key (Boto3.summaries objs) = [])
           then log (EPrint NBucketEmpty) w1 else w1)
      end
  end.
Proof.
  cbv zeta. unfold get_objects, bind at 1, Boto3.paginate, Boto3.call.
  destruct (faults w (tick w) _) as [e|]; [reflexivity|]. cbn.
  destruct (store w !! bucket self) as [objs|]; [|reflexivity].
  rewrite fold_pages_of. unfold bind, when, print, ret.
  destruct (bool_decide _); reflexivity.
Qed.

Lemma summaries_nil (objs : gmap string S3Object) :
  map Key (Boto3.summaries objs) = [] <-> objs = ∅.
Proof.
  split.
  - intros H. apply map_eq. intros k. rewrite lookup_empty.
    destruct (objs !! k) as [o|] eqn:Hk; [|reflexivity].
    assert (Hin : k ∈ map Key (Boto3.summaries objs))
      by (apply listed_iff_stored; eauto).
    rewrite H in Hin. apply elem_of_nil in Hin. contradiction.
  - intros ->. reflexivity.
Qed.

Lemma summaries_NoDup (objs : gmap string S3Object) :
  NoDup (map Key (Boto3.summaries objs)).
Proof.
  unfold Boto3.summaries.
  change (map Key) with (fmap (M := list) Key). rewrite <- list_fmap_compose.
  change (Key ∘ _) with (fst : string * S3Object -> string).
  rewrite merge_sort_Permutation. apply NoDup_fst_map_to_list.
Qed.

(** X6. When the listing is answered, [get_objects] answers the empty list
    exactly for a bucket without objects; it then prints the "Bucket is
    empty." notice and does not raise, and it prints nothing for a bucket
    that holds something. *)
Theorem X6_get_objects_empty_bucket
        (self : t) (w : world) (objs : gmap string S3Object) :
  faults w (tick w) (paginate_call (bucket self)) = None ->
  store w !! bucket self = Some objs ->
  (fst (get_objects self w) = Ok [] <-> objs = ∅)
  /\ (exists l, fst (get_objects self w) = Ok l)
  /\ trace (snd (get_objects self w))
     = trace w ++ ECall (paginate_call (bucket self))
               :: (if bool_decide (objs = ∅) then [EPrint NBucketEmpty] else []).
Proof.
  intros Hf Hb. rewrite get_objects_cases. cbv zeta. rewrite Hf, Hb. cbn [fst snd].
  split; [|split].
  - rewrite <- summaries_nil. split; [intros [= H]; exact H|intros ->; reflexivity].
  - eauto.
  - destruct (bool_decide (map Key (Boto3.summaries objs) = [])) eqn:Hnil.
    + apply bool_decide_eq_true in Hnil. apply summaries_nil in Hnil.
      rewrite bool_decide_eq_true_2 by exact Hnil. cbn. now rewrite <- app_assoc.
    + apply bool_decide_eq_false in Hnil. rewrite summaries_nil in Hnil.
      rewrite bool_decide_eq_false_2 by exact Hnil. reflexivity.
Qed.

Lemma sample_bucket : store Sample.w0 !! "b" = Some b_objects.
Proof. vm_compute. reflexivity. Qed.

Lemma X6_get_objects_empty_bucket_witness :
  fst (get_objects Sample.self w_empty) = Ok []
  /\ trace (snd (get_objects Sample.self w_empty))
     = [ECall (paginate_call "b"); EPrint NBucketEmpty]
  /\ trace (snd (get_objects Sample.self Sample.w0)) = [ECall (paginate_call "b")].
Proof.
  split; [|split].
  - apply (proj1 (X6_get_objects_empty_bucket Sample.self w_empty ∅ eq_refl eq_refl)).
    reflexivity.
  - exact (proj2 (proj2 (X6_get_objects_empty_bucket Sample.self w_empty ∅
                           eq_refl eq_refl))).
  - pose proof (proj2 (proj2 (X6_get_objects_empty_bucket Sample.self Sample.w0
                                b_objects eq_refl sample_bucket))) as H.
    rewrite bool_decide_eq_false_2 in H; [exact H|].
    intros Heq. apply (f_equal (fun m => m !! "a")) in Heq. vm_compute in Heq.
    discriminate Heq.
Defined.

(** X7. Whenever [get_objects] answers a list, the list holds each key of
    the bucket exactly once and no other key, however the service cuts
    the listing into pages. *)
Theorem X7_get_objects_lists_each_key_once (self : t) (w : world) (l : list string) :
  fst (get_objects self w) = Ok l ->
  NoDup l
  /\ forall k, k ∈ l <-> is_Some (Boto3.lookup_object (bucket self) k w).
Proof.
  rewrite get_objects_cases. cbv zeta.
  destruct (faults w (tick w) _); [discriminate|].
  unfold Boto3.lookup_object.
  destruct (store w !! bucket self) as [objs|]; [|discriminate].
  intros [= <-]. split; [apply summaries_NoDup|].
  intros k. apply listed_iff_stored.
Qed.

Lemma X7_get_objects_lists_each_key_once_witness :
  NoDup ["a"; "dir/"; "dir/f"; "doc"]
  /\ forall k, k ∈ ["a"; "dir/"; "dir/f"; "doc"]
               <-> is_Some (Boto3.lookup_object "b" k Sample.w0).
Proof.
  apply (X7_get_objects_lists_each_key_once Sample.self Sample.w0).
  vm_compute. reflexivity.
Defined.

(** ** What the reading methods leave alone *)

Lemma get_last_modified_eq self key w :
  get_last_modified self key w =
  (match fst (get_headers self key true w) with
   | Ok (Headers h) => Ok (Some (LastModified h))
   | Ok False_ => Ok None
   | Raise e => Raise e
   end, snd (get_headers self key true w)).
Proof.
  unfold get_last_modified, bind, ret.
  destruct (get_headers self key true w) as [[[h|]|e] w']; reflexivity.
Qed.

Lemma get_headers_untouched (self : t) (key : string) (stderr : bool) (w : world) :
  untouched w (snd (get_headers self key stderr w)).
Proof.
  rewrite get_headers_eq. unfold untouched, noted, after_head.
  destruct (faults w (tick w) _); [|destruct (Boto3.lookup_object _ _ _)];
    destruct stderr; repeat split.
Qed.

Lemma get_objects_untouched (self : t) (w : world) :
  untouched w (snd (get_objects self w)).
Proof.
  rewrite get_objects_cases. cbv zeta. unfold untouched.
  destruct (faults w (tick w) _); [repeat split|].
  destruct (store w !! bucket self); [|repeat split].
  destruct (bool_decide _); repeat split.
Qed.

(** X8. The methods that read ([get_objects], [get_files], [get_headers],
    [get_size], [get_metadata], [get_last_modified], [get_sha256],
    [buckets_list]) never change the remote store, the local files or the
    pending terminal input, whether the service answers or fails. *)
Theorem X8_readers_change_nothing
        (self : t) (key : string) (s3_dir : option string) (stderr : bool) (w : world) :
  untouched w (snd (get_objects self w))
  /\ untouched w (snd (get_files self s3_dir w))
  /\ untouched w (snd (get_headers self key stderr w))
  /\ untouched w (snd (get_size self key w))
  /\ untouched w (snd (get_metadata self key w))
  /\ untouched w (snd (get_last_modified self key w))
  /\ untouched w (snd (get_sha256 self key w))
  /\ untouched w (snd (buckets_list (s3 self) w)).
Proof.
  refine (conj _ (conj _ (conj _ (conj _ (conj _ (conj _ (conj _ _))))))).
  - apply get_objects_untouched.
  - pose proof (get_objects_untouched self w) as H.
    unfold get_files, bind.
    destruct (get_objects self w) as [[l|e] w']; [destruct s3_dir|]; exact H.
  - apply get_headers_untouched.
  - rewrite get_size_eq. apply get_headers_untouched.
  - rewrite get_metadata_eq. apply get_headers_untouched.
  - rewrite get_last_modified_eq. apply get_headers_untouched.
  - rewrite get_sha256_eq. cbv zeta. unfold untouched.
    destruct (faults w (tick w) _); [repeat split|].
    destruct (Boto3.lookup_object _ _ _); [|repeat split].
    destruct (faults w (S (tick w)) _); repeat split.
  - destruct (faults w (tick w) list_buckets_call) as [e|] eqn:Hf.
    + rewrite (buckets_list_fault _ _ _ Hf). repeat split.
    + rewrite (buckets_list_eq _ _ Hf). repeat split.
Qed.

(** ** [upload] and [download] *)









(** X12. [download] never changes the remote store or the pending input,
    and of the local files at most the destination: when it answers
    False, or raises, no file changes at all; when it answers True the key
    is in the bucket and the destination holds its body. *)
Theorem X12_download_touches_only_destination
        (self : t) (key download_path : string) (stdout : bool) (w : world) :
  let r := download self key download_path stdout w in
  store (snd r) = store w
  /\ stdin (snd r) = stdin w
  /\ (forall p, p <> download_path -> fs (snd r) !! p = fs w !! p)
  /\ (fst r <> Ok true -> fs (snd r) = fs w)
  /\ (fst r = Ok true ->
      exists o, Boto3.lookup_object (bucket self) key w = Some o
                /\ fs (snd r) !! download_path = Some (obj_body o)).
Proof.
  cbv zeta. rewrite download_eq. cbv zeta.
  destruct (faults w (tick w) _) as [e|].
  - destruct (is_ClientError e); destruct stdout; cbn;
      repeat split; try reflexivity; try discriminate; congruence.
  - destruct (Boto3.lookup_object (bucket self) key w) as [o|]; destruct stdout; cbn.
    all: repeat split; try reflexivity; try discriminate; try congruence.
    all: try (intros p Hp; now apply lookup_insert_ne).
    all: intros _; exists o; split; [reflexivity|apply lookup_insert_eq].
Qed.

Lemma X12_download_touches_only_destination_witness :
  fs (snd (download Sample.self "a" "/tmp/out" true Sample.w0)) !! "/tmp/f"
  = fs Sample.w0 !! "/tmp/f"
  /\ fs (snd (download Sample.self "missing" "/tmp/out" true Sample.w0)) = fs Sample.w0
  /\ exists o, Boto3.lookup_object "b" "a" Sample.w0 = Some o
               /\ fs (snd (download Sample.self "a" "/tmp/out" true Sample.w0))
                  !! "/tmp/out" = Some (obj_body o).
Proof.
  split; [|split].
  - refine (proj1 (proj2 (proj2 (X12_download_touches_only_destination
                                   Sample.self "a" "/tmp/out" true Sample.w0)))
              "/tmp/f" _).
    discriminate.
  - refine (proj1 (proj2 (proj2 (proj2 (X12_download_touches_only_destination
                                          Sample.self "missing" "/tmp/out" true
                                          Sample.w0)))) _).
    vm_compute. discriminate.
  - refine (proj2 (proj2 (proj2 (proj2 (X12_download_touches_only_destination
                                          Sample.self "a" "/tmp/out" true
                                          Sample.w0)))) _).
    vm_compute. reflexivity.
Defined.

(** ** The getters derived from [get_headers] *)



(** ** [delete] *)







(** ** What the writing methods leave alone *)

(** What a run may do to the store: each object is as it was, or it was
    under one of the given keys of the bucket and is gone. *)
Lemma delete_flag_eq (self : t) (key : string) (w : world) :
  delete self key true w =
  match stdin w with
  | [] =>
      (Raise EOFError,
       set_stdin [] (log (EAsk delete_question)
                         (log (EPrint (NDeleting key (bucket self))) w)))
  | _ :: more =>
      bind (get_headers self key true)
           (fun headers =>
              if truthy_headers headers
              then Boto3.delete_object (s3 self) (bucket self) key
              else print (NCantDelete key))
           (set_stdin more (log (EAsk delete_question)
                                (log (EPrint (NDeleting key (bucket self))) w)))
  end.
Proof.
  unfold delete, bind, when, print, ret, Prompt.ask. cbn.
  destruct (stdin w); reflexivity.
Qed.

Lemma delete_shrinks (self : t) (key : string) (flag : bool) (w : world) :
  let w' := snd (delete self key flag w) in
  fs w' = fs w
  /\ forall b k,
      Boto3.lookup_object b k w' = Boto3.lookup_object b k w
      \/ (b = bucket self /\ k = key /\ Boto3.lookup_object b k w' = None).
Proof.
  cbv zeta.
  set (tail := bind (get_headers self key true)
                    (fun headers =>
                       if truthy_headers headers
                       then Boto3.delete_object (s3 self) (bucket self) key
                       else print (NCantDelete key))).
  assert (Hq : forall w0, fs (snd (tail w0)) = fs w0
               /\ forall b k,
                   Boto3.lookup_object b k (snd (tail w0)) = Boto3.lookup_object b k w0
                   \/ (b = bucket self /\ k = key
                       /\ Boto3.lookup_object b k (snd (tail w0)) = None)).
  { intros w0. unfold tail, bind. rewrite get_headers_eq.
    unfold Boto3.delete_object, Boto3.call, after_head, noted, Boto3.lookup_object,
      print. cbn.
    destruct (faults w0 (tick w0) _) as [e|]; cbn; [split; [reflexivity|now left]|].
    destruct (store w0 !! bucket self) as [objs|] eqn:Hb; cbn;
      [|split; [reflexivity|now left]].
    destruct (objs !! key) as [o|]; cbn; [|split; [reflexivity|now left]].
    destruct (faults w0 (S (tick w0)) _); cbn; [split; [reflexivity|now left]|].
    rewrite Hb. cbn. split; [reflexivity|].
    intros b k.
    destruct (decide (b = bucket self)) as [->|Hne].
    - rewrite lookup_insert_eq, Hb. cbn.
      destruct (decide (k = key)) as [->|Hk].
      + right. repeat split. apply lookup_delete_eq.
      + left. now apply lookup_delete_ne.
    - left. now rewrite lookup_insert_ne. }
  destruct flag.
  - rewrite delete_flag_eq.
    destruct (stdin w) as [|answer more]; [split; [reflexivity|now left]|].
    apply (Hq (set_stdin more (log (EAsk delete_question)
                                   (log (EPrint (NDeleting key (bucket self))) w)))).
  - apply (Hq (log (EPrint (NDeleting key (bucket self))) w)).
Qed.

Lemma for_delete_shrinks (self : t) (keys : list string) (w : world) :
  let w' := snd (for_ keys (fun obj => delete self obj false) w) in
  fs w' = fs w
  /\ forall b k,
      Boto3.lookup_object b k w' = Boto3.lookup_object b k w
      \/ (b = bucket self /\ k ∈ keys /\ Boto3.lookup_object b k w' = None).
Proof.
  cbv zeta. revert w. induction keys as [|key keys IH]; intros w.
  - split; [reflexivity|]. intros b k. now left.
  - cbn [for_]. unfold bind.
    pose proof (delete_shrinks self key false w) as [Hfs H1]. cbv zeta in Hfs, H1.
    destruct (delete self key false w) as [[[]|e] w1]; cbn [snd] in *.
    + destruct (IH w1) as [Hfs2 H2]. split; [congruence|].
      intros b k. destruct (H2 b k) as [Heq|(-> & Hin & Hnone)].
      * destruct (H1 b k) as [Heq1|(-> & -> & Hnone)].
        -- left. congruence.
        -- right. repeat split; [apply elem_of_cons; now left|congruence].
      * right. repeat split; [apply elem_of_cons; now right|exact Hnone].
    + split; [exact Hfs|]. intros b k.
      destruct (H1 b k) as [Heq1|(-> & -> & Hnone)]; [now left|].
      right. repeat split; [apply elem_of_cons; now left|exact Hnone].
Qed.

(** X16. Whatever the operator types and whatever the service does,
    [delete_from_list] changes no local file and can only remove objects
    of its bucket that are in the list: every object under another key,
    or in another bucket, is exactly as it was, and no object appears or
    is altered. *)
Theorem X16_delete_from_list_only_removes_listed
        (self : t) (keys : list string) (w : world) :
  let w' := snd (delete_from_list self keys w) in
  fs w' = fs w
  /\ (forall b k,
         b <> bucket self \/ k ∉ keys ->
         Boto3.lookup_object b k w' = Boto3.lookup_object b k w)
  /\ (forall b k o,
         Boto3.lookup_object b k w' = Some o -> Boto3.lookup_object b k w = Some o).
Proof.
  cbv zeta. rewrite delete_from_list_eq. cbv zeta.
  set (w1 := set_stdin _ _).
  assert (H : fs (snd (match fst (Prompt.read_answer (Some ["yes"; "no"]) (Some "no")
                                    (stdin w)) with
                       | Ok a =>
                           if String.eqb a "yes"
                           then for_ keys (fun obj => delete self obj false) w1
                           else (Ok tt, w1)
                       | Raise e => (Raise e, w1)
                       end)) = fs w
              /\ forall b k,
                  Boto3.lookup_object b k
                    (snd (match fst (Prompt.read_answer (Some ["yes"; "no"]) (Some "no")
                                       (stdin w)) with
                          | Ok a =>
                              if String.eqb a "yes"
                              then for_ keys (fun obj => delete self obj false) w1
                              else (Ok tt, w1)
                          | Raise e => (Raise e, w1)
                          end)) = Boto3.lookup_object b k w
                  \/ (b = bucket self /\ k ∈ keys
                      /\ Boto3.lookup_object b k
                           (snd (match fst (Prompt.read_answer (Some ["yes"; "no"])
                                              (Some "no") (stdin w)) with
                                 | Ok a =>
                                     if String.eqb a "yes"
                                     then for_ keys (fun obj => delete self obj false) w1
                                     else (Ok tt, w1)
                                 | Raise e => (Raise e, w1)
                                 end)) = None)).
  { destruct (fst (Prompt.read_answer _ _ _)) as [a|e];
      [destruct (String.eqb a "yes")|]; cbn [snd].
    - apply (for_delete_shrinks self keys w1).
    - split; [reflexivity|]. intros b k. now left.
    - split; [reflexivity|]. intros b k. now left. }
  destruct H as [Hfs H]. split; [exact Hfs|]. split.
  - intros b k Hout. destruct (H b k) as [Heq|(-> & Hin & _)]; [exact Heq|].
    destruct Hout as [Hb|Hk]; [now contradiction Hb|contradiction].
  - intros b k o Ho. destruct (H b k) as [Heq|(_ & _ & Hnone)]; congruence.
Qed.

Lemma X16_delete_from_list_only_removes_listed_witness :
  Boto3.lookup_object "b" "doc"
    (snd (delete_from_list Sample.self ["a"; "dir/f"] (set_stdin ["yes"] Sample.w0)))
  = Boto3.lookup_object "b" "doc" (set_stdin ["yes"] Sample.w0).
Proof.
  refine (proj1 (proj2 (X16_delete_from_list_only_removes_listed Sample.self
                          ["a"; "dir/f"] (set_stdin ["yes"] Sample.w0))) "b" "doc" _).
  right. intros H. apply list_elem_of_In in H. cbn in H.
  destruct H as [H|[H|[]]]; discriminate H.
Defined.

Lemma lookup_object_put_other (bucket key b k : string) (o : S3Object)
      (objs : gmap string S3Object) (w : world) :
  store w !! bucket = Some objs ->
  b <> bucket \/ k <> key ->
  Boto3.lookup_object b k (Boto3.put bucket key o objs w) = Boto3.lookup_object b k w.
Proof.
  intros Hb Hne. unfold Boto3.lookup_object, Boto3.put. cbn.
  destruct (decide (b = bucket)) as [->|Hbne].
  - rewrite lookup_insert_eq, Hb. cbn. destruct Hne as [Hne|Hne]; [contradiction|].
    now apply lookup_insert_ne.
  - now rewrite lookup_insert_ne.
Qed.

(** X17. Whatever the service does, [update_metadata] changes no local
    file, reads no input, leaves every object under another key or in
    another bucket exactly as it was, and never changes the body of the
    object it is applied to, nor creates or removes it. *)
Theorem X17_update_metadata_keeps_bodies
        (self : t) (key : string) (meta : metadata) (stdout : bool) (w : world) :
  let w' := snd (update_metadata self key meta stdout w) in
  fs w' = fs w
  /\ stdin w' = stdin w
  /\ (forall b k,
         b <> bucket self \/ k <> key ->
         Boto3.lookup_object b k w' = Boto3.lookup_object b k w)
  /\ obj_body <$> Boto3.lookup_object (bucket self) key w'
     = obj_body <$> Boto3.lookup_object (bucket self) key w.
Proof.
  cbv zeta.
  destruct (faults w (tick w) (head_object_call (bucket self) key)) as [e|] eqn:Hh;
    [|destruct (Boto3.lookup_object (bucket self) key w) as [o|] eqn:Ho].
  - unfold update_metadata, bind. rewrite get_headers_eq, Hh. cbn. repeat split.
  - rewrite (update_metadata_present self key meta stdout w o Hh Ho). cbv zeta.
    apply lookup_object_Some in Ho as Ho'. destruct Ho' as (objs & Hb & Hk).
    destruct (faults w (S (tick w)) _).
    + unfold noted. destruct stdout; repeat split.
      all: exact (f_equal (fmap obj_body) Ho).
    + cbn [snd]. rewrite Hb. cbn [default].
      split; [unfold noted; destruct stdout; reflexivity|].
      split; [unfold noted; destruct stdout; reflexivity|].
      split.
      * intros b k Hne. rewrite lookup_object_put_other; auto.
        -- unfold noted. destruct stdout; reflexivity.
        -- unfold noted. destruct stdout; exact Hb.
      * rewrite lookup_object_put. reflexivity.
  - unfold update_metadata, bind. rewrite get_headers_eq, Hh, Ho. cbn.
    repeat split. exact (f_equal (fmap obj_body) Ho).
Qed.

Lemma X17_update_metadata_keeps_bodies_witness :
  Boto3.lookup_object "b" "a"
    (snd (update_metadata Sample.self "doc" {[ "stage" := "final" ]} false Sample.w0))
  = Boto3.lookup_object "b" "a" Sample.w0.
Proof.
  refine (proj1 (proj2 (proj2 (X17_update_metadata_keeps_bodies Sample.self "doc"
                                 {[ "stage" := "final" ]} false Sample.w0)))
            "b" "a" _).
  right. discriminate.
Defined.

(** X24. Whatever the flag, the operator's answer and the service's
    behaviour, [delete] changes no local file and no object other than the
    one under its key in its bucket, which it can only remove. *)
Theorem X24_delete_touches_only_its_key
        (self : t) (key : string) (flag : bool) (w : world) :
  let w' := snd (delete self key flag w) in
  fs w' = fs w
  /\ (forall b k,
         b <> bucket self \/ k <> key ->
         Boto3.lookup_object b k w' = Boto3.lookup_object b k w)
  /\ (forall o,
         Boto3.lookup_object (bucket self) key w' = Some o ->
         Boto3.lookup_object (bucket self) key w = Some o).
Proof.
  cbv zeta. destruct (delete_shrinks self key flag w) as [Hfs H].
  split; [exact Hfs|]. split.
  - intros b k Hne. destruct (H b k) as [Heq|(-> & -> & _)]; [exact Heq|].
    destruct Hne as [Hne|Hne]; now contradiction Hne.
  - intros o Ho. destruct (H (bucket self) key) as [Heq|(_ & _ & Hnone)]; congruence.
Qed.

Lemma X24_delete_touches_only_its_key_witness :
  Boto3.lookup_object "b" "doc" (snd (delete Sample.self "a" true Sample.w0))
  = Boto3.lookup_object "b" "doc" Sample.w0.
Proof.
  refine (proj1 (proj2 (X24_delete_touches_only_its_key Sample.self "a" true Sample.w0))
            "b" "doc" _).
  right. discriminate.
Defined.

(** ** How the operations compose *)





(** ** The two variants side by side *)

(** X21. The listing loop of S3Wrapper/S3Wrapper.py, which appends the keys
    one by one, and that of s3wrapper/S3Wrapper.py, which extends the list
    page by page, give the same result and the same notices in every
    world; so do the two [get_files]. *)
Theorem X21_variants_list_alike (self : t) (s3_dir : option string) (w : world) :
  Legacy.get_objects self w = get_objects self w
  /\ Legacy.get_files self s3_dir w = get_files self s3_dir w.
Proof.
  split; [apply legacy_get_objects_same|apply legacy_get_files_same].
Qed.

Lemma filter_andb {A} (f g : A -> bool) (l : list A) :
  List.filter (fun x => f x && g x) l = List.filter f (List.filter g l).
Proof.
  induction l as [|x l IH]; [reflexivity|].
  cbn. destruct (g x); cbn; destruct (f x); cbn; rewrite ?IH; reflexivity.
Qed.

Lemma startswith_empty (s : string) : startswith s "" = true.
Proof. apply startswith_spec. exists s. reflexivity. Qed.

(** X22. The empty prefix selects what no prefix selects, and the files
    under any prefix are, in order, among the files without prefix. *)
Theorem X22_get_files_prefix (self : t) (dir : string) (w : world) :
  get_files self (Some "") w = get_files self None w
  /\ forall l_all l_dir,
      fst (get_files self None w) = Ok l_all ->
      fst (get_files self (Some dir) w) = Ok l_dir ->
      sublist l_dir l_all
      /\ l_dir = List.filter (fun file => startswith file dir) l_all.
Proof.
  unfold get_files, bind, ret.
  destruct (get_objects self w) as [[l|e] w']; [|split; [reflexivity|discriminate]].
  split.
  - f_equal. f_equal. apply filter_ext. intros file. now rewrite startswith_empty.
  - intros l_all l_dir [= <-] [= <-].
    rewrite (filter_andb (fun file => startswith file dir)
                         (fun file => negb (endswith file "/"))).
    split; [apply filter_sublist|reflexivity].
Qed.

Lemma X22_get_files_prefix_witness :
  sublist ["dir/f"] ["a"; "dir/f"; "doc"]
  /\ ["dir/f"] = List.filter (fun file => startswith file "dir/") ["a"; "dir/f"; "doc"].
Proof.
  refine (proj2 (X22_get_files_prefix Sample.self "dir/" Sample.w0) _ _ _ _);
    vm_compute; reflexivity.
Defined.

Lemma legacy_read_keys_present (key_location key_text secret_text : string) (w : world) :
  fs w !! os_path_join key_location "key" = Some key_text ->
  fs w !! os_path_join key_location "private_key" = Some secret_text ->
  Legacy._read_keys key_location w = (Ok (strip key_text, strip secret_text), w).
Proof.
  unfold Legacy._read_keys.
  generalize (os_path_join key_location "key") (os_path_join key_location "private_key").
  intros p1 p2 H1 H2.
  unfold bind, ret, S3Auth.isfile, S3Auth._file_read. cbn.
  rewrite H1. rewrite bool_decide_eq_true_2 by eauto.
  cbn. rewrite H2. rewrite bool_decide_eq_true_2 by eauto.
  cbn. rewrite H1, H2. reflexivity.
Qed.

Lemma key_locations_agree (w : world) :
  home w <> "" ->
  endswith (home w) "/" = false ->
  os_path_join (home w) ".s3" = home w +:+ "/.s3".
Proof.
  intros Hne Hend. unfold os_path_join.
  apply String.eqb_neq in Hne. rewrite Hne, Hend. reflexivity.
Qed.

(** X23. The two variants look for the credential files in the same
    directory as long as the home directory is not empty and does not end
    in a slash (the earlier one pastes "/.s3" onto it, the current one
    joins the two), and then, whenever the current [S3Auth] succeeds, the
    earlier one builds the same client. *)
Theorem X23_variants_resolve_credentials_alike
        (region : string) (access_key secret_access_key : option string)
        (w : world) (auth : S3Auth.t) :
  home w <> "" ->
  endswith (home w) "/" = false ->
  fst (S3Auth.__init__ region access_key secret_access_key w) = Ok auth ->
  Legacy.default_key_location w = S3Auth.default_key_location w
  /\ Legacy.S3Auth__init__ region access_key secret_access_key w = (Ok auth, w).
Proof.
  intros Hne Hend Hok.
  pose proof (key_locations_agree w Hne Hend) as Hloc.
  split; [unfold Legacy.default_key_location, S3Auth.default_key_location;
          now rewrite Hloc|].
  unfold S3Auth.__init__, S3Auth._create_client, bind in Hok.
  unfold Legacy.S3Auth__init__, Legacy._client, bind.
  destruct (negb (truthy_str access_key) || negb (truthy_str secret_access_key)).
  - unfold S3Auth.default_key_location in Hok. unfold Legacy.default_key_location.
    rewrite <- Hloc.
    destruct (fs w !! os_path_join (os_path_join (home w) ".s3") "key")
      as [kt|] eqn:H1;
      [destruct (fs w !! os_path_join (os_path_join (home w) ".s3") "private_key")
         as [st|] eqn:H2|].
    + rewrite (read_keys_present _ _ _ _ H1 H2) in Hok.
      rewrite (legacy_read_keys_present _ _ _ _ H1 H2).
      cbn in Hok. injection Hok as <-. reflexivity.
    + rewrite (read_keys_missing _ w (or_intror H2)) in Hok. discriminate Hok.
    + rewrite (read_keys_missing _ w (or_introl H1)) in Hok. discriminate Hok.
  - cbn in Hok. injection Hok as <-. reflexivity.
Qed.

Lemma X23_variants_resolve_credentials_alike_witness :
  Legacy.S3Auth__init__ "us-east-1" None None w_keys
  = (Ok {| S3Auth.region_name := "us-east-1";
           S3Auth.client := client_of "us-east-1" "AKIA123" "s3cr3t" |}, w_keys).
Proof.
  refine (proj2 (X23_variants_resolve_credentials_alike "us-east-1" None None w_keys _
                   _ eq_refl _)).
  - discriminate.
  - vm_compute. reflexivity.
Defined.

(** Where the precondition fails the two differ: with "/" as home directory
    the current variant looks in "/.s3", the earlier one in "//.s3". *)
Example key_locations_differ_at_root :
  os_path_join "/" ".s3" = "/.s3" /\ "/" +:+ "/.s3" = "//.s3".
Proof. split; reflexivity. Qed.

Lemma X4_init_succeeds_iff_listed_witness :
  fst (__init__ "b" "us-east-1" (Some "AKIA") (Some "secret") Sample.w0)
  = Ok {| s3 := client_of "us-east-1" "AKIA" "secret"; bucket := "b" |}.
Proof.
  apply (proj2 (X4_init_succeeds_iff_listed "b" "us-east-1" (Some "AKIA") (Some "secret")
                  Sample.w0 _)).
  split; [|split].
  - eexists. split; reflexivity.
  - reflexivity.
  - exists ["b"]. split; [reflexivity|]. apply list_elem_of_In. now left.
Defined.

Lemma legacy_auth_ok_reads_only (region : string)
      (access_key secret_access_key : option string) (w : world) (auth : S3Auth.t) :
  fst (Legacy.S3Auth__init__ region access_key secret_access_key w) = Ok auth ->
  snd (Legacy.S3Auth__init__ region access_key secret_access_key w) = w.
Proof.
  unfold Legacy.S3Auth__init__, Legacy._client, Legacy._read_keys, bind, ret, raise, print,
    Legacy.default_key_location, S3Auth.isfile, S3Auth._file_read, Boto3.new_client.
  destruct (negb _ || negb _); [|reflexivity]. cbn.
  destruct (bool_decide _); cbn; [|discriminate].
  destruct (bool_decide _); cbn; [|discriminate].
  destruct (fs w !! _); cbn; [|discriminate].
  destruct (fs w !! _); cbn; [reflexivity|discriminate].
Qed.

Lemma legacy_buckets_list_cases (client : Boto3.client) (w : world) :
  Legacy.buckets_list client w
  = (match faults w (tick w) list_buckets_call with
     | Some e => Raise (if is_KeyError e then S3Exception Legacy.list_error_message else e)
     | None =>
         match listed_names (buckets_output w) with
         | Some l => Ok l
         | None => Raise (S3Exception Legacy.list_error_message)
         end
     end, log (ECall list_buckets_call) (bump w)).
Proof.
  unfold Legacy.buckets_list, try_, bind at 1, Boto3.list_buckets, Boto3.call.
  destruct (faults w (tick w) list_buckets_call) as [e|]; [destruct e; reflexivity|].
  cbn. unfold listed_names, bind.
  destruct (Buckets (buckets_output w)) as [bs|]; cbn; [|reflexivity].
  rewrite comprehension_names. destruct (mapM Name bs); reflexivity.
Qed.

(** X25. The constructor of S3Wrapper/S3Wrapper.py ([_get_bucket] after
    its own [S3Auth]) succeeds exactly when its credentials resolve, the
    service answers the bucket listing, the listing has the expected shape
    and carries the bucket name, and it then binds that name; a listing
    that lacks the name raises its S3Exception "Bucket <name> not found."
    and a listing of another shape its "Error while getting bucket list
    from aws.". *)
Theorem X25_legacy_init_bucket_check
        (bucket_name region : string) (access_key secret_access_key : option string)
        (w : world) (auth : S3Auth.t) :
  fst (Legacy.S3Auth__init__ region access_key secret_access_key w) = Ok auth ->
  faults w (tick w) list_buckets_call = None ->
  fst (Legacy.__init__ bucket_name region access_key secret_access_key w)
  = match listed_names (buckets_output w) with
    | None => Raise (S3Exception Legacy.list_error_message)
    | Some l =>
        if bool_decide (bucket_name ∈ l)
        then Ok {| s3 := S3Auth.client auth; bucket := bucket_name |}
        else Raise (S3Exception (Legacy.bucket_not_found_message bucket_name))
    end.
Proof.
  intros Hauth Hf.
  pose proof (legacy_auth_ok_reads_only _ _ _ _ _ Hauth) as Hw.
  unfold Legacy.__init__. unfold bind at 1.
  destruct (Legacy.S3Auth__init__ region access_key secret_access_key w) as [r w'].
  cbn in Hauth, Hw. subst r w'.
  unfold bind at 1, Legacy._get_bucket, bind at 1.
  rewrite legacy_buckets_list_cases, Hf.
  destruct (listed_names (buckets_output w)) as [l|]; [|reflexivity].
  destruct (bool_decide (bucket_name ∈ l)); reflexivity.
Qed.

Lemma X25_legacy_init_bucket_check_witness :
  fst (Legacy.__init__ "b" "us-east-1" (Some "AKIA") (Some "secret") Sample.w0)
  = Ok {| s3 := client_of "us-east-1" "AKIA" "secret"; bucket := "b" |}
  /\ fst (Legacy.__init__ "c" "us-east-1" (Some "AKIA") (Some "secret") Sample.w0)
     = Raise (S3Exception "[red]|ERROR| Bucket c not found.").
Proof.
  split.
  - exact (X25_legacy_init_bucket_check "b" "us-east-1" (Some "AKIA") (Some "secret")
             Sample.w0 _ eq_refl eq_refl).
  - exact (X25_legacy_init_bucket_check "c" "us-east-1" (Some "AKIA") (Some "secret")
             Sample.w0 _ eq_refl eq_refl).
Defined.
